(** * An HTTP facade over an S3-compatible object store

    Shallow embedding of the two server variants of the repository:

    - [Proxy]  : [src/index.js], the streaming-proxy variant (upload,
      download, listing and deletion go through the server);
    - [Direct] : [src/unnamed/part_000], the direct-upload variant
      (pre-signed URLs plus an in-memory register of posts).

    The MinIO client, Fastify and the multipart plugin are external
    collaborators.  The client is modelled as an in-memory bucket store
    with an oracle that injects upstream failures; every call the handlers
    make is recorded in a trace.  A handler is a computation in a state and
    exception monad that mirrors [async]/[await] with [try]/[catch]: one
    request runs to completion without interleaving. *)

From Stdlib Require Import ZArith Strings.Byte Strings.Ascii.
From stdpp Require Import base option list gmap strings pretty.

Set Warnings "-register-all".

Local Open Scope Z_scope.
Local Open Scope string_scope.
Local Open Scope list_scope.

(** ** JavaScript values that the handlers build *)

Inductive JSON : Type :=
| JUndef
| JNull
| JBool (b : bool)
| JNum (n : Z)
| JDate (ms : Z)
| JStr (s : string)
| JArr (l : list JSON)
| JObj (fields : list (string * JSON)).

(** Property access [o.k] / [o[k]] on an object literal: the first binding
    of the key, [undefined] when there is none. *)
Fixpoint get_field (k : string) (fields : list (string * JSON)) : option JSON :=
  match fields with
  | [] => None
  | (k', v) :: rest => if String.eqb k k' then Some v else get_field k rest
  end.

(** [v.k], also what destructuring [const { k } = v] binds: a property of
    an object, [undefined] on a value that has no such property. *)
Definition prop (k : string) (v : JSON) : JSON :=
  match v with
  | JObj fields => default JUndef (get_field k fields)
  | _ => JUndef
  end.

Definition has_field (k : string) (j : JSON) : bool :=
  match j with
  | JObj fields => bool_decide (is_Some (get_field k fields))
  | _ => false
  end.

Definition field_names (j : JSON) : list string :=
  match j with
  | JObj fields => fields.*1
  | _ => []
  end.

(** Truthiness of [m[k]] for a dictionary of strings: [undefined] and the
    empty string are falsy. *)
Definition truthy (v : option string) : bool :=
  match v with
  | Some s => negb (String.eqb s "")
  | None => false
  end.

(** [v || d] where [v] is [undefined] or a string. *)
Definition or_else (v : option string) (d : string) : string :=
  match v with
  | Some s => if String.eqb s "" then d else s
  | None => d
  end.

(** A value that may be [undefined], as a JSON field. *)
Definition opt_str (v : option string) : JSON :=
  match v with
  | Some s => JStr s
  | None => JUndef
  end.

(** ** Errors, replies *)

(** A thrown JavaScript error; the handlers only ever look at [error.code]. *)
Record Err : Type := mkErr { code : option string }.

Definition NoSuchKey : Err := mkErr (Some "NoSuchKey").
Definition NoSuchBucket : Err := mkErr (Some "NoSuchBucket").
Definition BucketAlreadyOwnedByYou : Err := mkErr (Some "BucketAlreadyOwnedByYou").
Definition NotFound : Err := mkErr (Some "NotFound").

(** [error.code === c] *)
Definition code_is (e : Err) (c : string) : bool :=
  match code e with
  | Some c' => String.eqb c' c
  | None => false
  end.

Inductive Body : Type :=
| BJson (j : JSON)
| BStream (bytes : list byte).

Record Reply : Type := mkReply {
  status : Z;
  headers : list (string * string);
  body : Body
}.

(** [return obj] from a handler: status 200. *)
Definition ok (j : JSON) : Reply := mkReply 200 [] (BJson j).

(** [reply.code(c).send(obj)] *)
Definition send (c : Z) (j : JSON) : Reply := mkReply c [] (BJson j).

Definition error_payload (msg : string) : JSON := JObj [("error", JStr msg)].

Fixpoint assoc (k : string) (l : list (string * string)) : option string :=
  match l with
  | [] => None
  | (k', v) :: rest => if String.eqb k k' then Some v else assoc k rest
  end.

(** The value of a response header, if the handler set it. *)
Definition header (k : string) (r : Reply) : option string := assoc k (headers r).

(** ** The object store and its client *)

Module obj.
  (** An element of the [listObjects] stream. *)
Record t : Type := mk { name : string; size : Z; lastModified : Z }.
End obj.

Module stat.
  (** The result of [statObject]. *)
Record t : Type := mk {
    size : Z;
    metaData : gmap string string;
    lastModified : Z
  }.
End stat.

Module data.
  (** What [request.file()] yields for the first file part. *)
Record t : Type := mk { filename : string; mimetype : string; file : list byte }.
End data.

(** The name under which the client reports a response header of an
    object in [stat.metaData]: user-defined metadata travels as
    [x-amz-meta-<name>] headers and is reported under [<name>], the prefix
    stripped; the other headers keep their name. *)
Definition amz_meta_prefix : string := "x-amz-meta-".

Fixpoint strip_prefix (p s : string) : option string :=
  match p with
  | EmptyString => Some s
  | String a p' =>
      match s with
      | EmptyString => None
      | String b s' => if Ascii.eqb a b then strip_prefix p' s' else None
      end
  end.

Definition reported_name (h : string) : string :=
  default h (strip_prefix amz_meta_prefix h).

(** The metadata that the client reports for an object with the response
    headers [hs] (names in lower case, as the runtime delivers them). *)
Definition from_headers (hs : list (string * string)) : gmap string string :=
  list_to_map (prod_map reported_name id <$> hs).

(** A stored object: its bytes, its metadata under the names that the
    client reports (see [from_headers]), and the instant at which the
    store committed it. *)
Record Stored : Type := mkStored {
  content : list byte;
  meta : gmap string string;
  modified : Z
}.

Definition stored_size (o : Stored) : Z := Z.of_nat (length (content o)).

(** The calls that leave the process. *)
Inductive Call : Type :=
| BucketExists (bucket : string)
| MakeBucket (bucket region : string)
| PutObject (bucket key : string)
| GetObject (bucket key : string)
| StatObject (bucket key : string)
| ListObjects (bucket prefix : string) (recursive : bool)
| RemoveObject (bucket key : string)
| PresignedPutObject (bucket key : string) (expiry : Z)
| PresignedGetObject (bucket key : string) (expiry : Z)
| Listen (port : Z) (host : string).

#[global] Instance Call_eq_dec : EqDecision Call.
Proof. solve_decision. Defined.

Inductive LogLine : Type :=
| Log (msg : string)
| LogError (msg : string) (e : Err)
| LoggerError (e : Err)
| Unhandled (e : Err).

(** What the handlers cannot control: upstream failures, the clock of the
    process ([Date.now()]), the signature the store computes, the metadata
    the client records on its own account for a put that carries none,
    the clock of the store (it stamps what it commits; the handlers never
    send theirs), and how many objects a listing that fails has yielded
    before it fails. *)
Record Env : Type := mkEnv {
  fault : Call → option Err;
  now : Z;
  sign : Call → string;
  implicitMeta : gmap string string;
  storeClock : Z;
  yielded : nat
}.

Record State : Type := mkState {
  buckets : gmap string (gmap string Stored);
  trace : list Call;
  console : list LogLine;
  exited : option Z
}.

Definition set_buckets (b : gmap string (gmap string Stored)) (st : State) : State :=
  mkState b (trace st) (console st) (exited st).

Definition record (c : Call) (st : State) : State :=
  mkState (buckets st) (trace st ++ [c]) (console st) (exited st).

Definition say (l : LogLine) (st : State) : State :=
  mkState (buckets st) (trace st) (console st ++ [l]) (exited st).

Inductive Outcome (A : Type) : Type :=
| Return (a : A)
| Throw (e : Err).
Arguments Return {A} a.
Arguments Throw {A} e.

(** State and exceptions; the state survives a throw. *)
Definition M (A : Type) : Type := State → Outcome A * State.

Definition ret {A} (a : A) : M A := λ st, (Return a, st).

Definition bind {A B} (m : M A) (k : A → M B) : M B := λ st,
  match m st with
  | (Return a, st') => k a st'
  | (Throw e, st') => (Throw e, st')
  end.

Definition throw {A} (e : Err) : M A := λ st, (Throw e, st).

(** [try { body } catch (error) { handler }] *)
Definition try_catch {A} (body : M A) (handler : Err → M A) : M A := λ st,
  match body st with
  | (Return a, st') => (Return a, st')
  | (Throw e, st') => handler e st'
  end.

Declare Scope js_scope.
Delimit Scope js_scope with js.
Notation "'await' x := c 'in' k" := (bind c (λ x, k))
  (at level 10, x name, c at level 100, k at level 200) : js_scope.
Notation "'await_' c 'in' k" := (bind c (λ _, k))
  (at level 10, c at level 100, k at level 200) : js_scope.
Open Scope js_scope.

Definition console_log (msg : string) : M unit := λ st, (Return (), say (Log msg) st).

Definition console_error (msg : string) (e : Err) : M unit := λ st,
  (Return (), say (LogError msg e) st).

(** [fastify.log.error(err)] / [req.log.error(err)] *)
Definition log_error (e : Err) : M unit := λ st, (Return (), say (LoggerError e) st).

Definition process_exit (c : Z) : M unit := λ st,
  (Return (), mkState (buckets st) (trace st) (console st) (Some c)).

Section Client.
Variable env : Env.

  (** Issue a call: it is recorded, and fails when the oracle says so. *)
Definition call (c : Call) : M unit := λ st,
    match fault env c with
    | Some e => (Throw e, record c st)
    | None => (Return (), record c st)
    end.

Definition bucketExists (b : string) : M bool :=
    await_ call (BucketExists b) in
    λ st, (Return (bool_decide (is_Some (buckets st !! b))), st).

Definition makeBucket (b region : string) : M unit :=
    await_ call (MakeBucket b region) in
    λ st, match buckets st !! b with
          | Some _ => (Throw BucketAlreadyOwnedByYou, st)
          | None => (Return (), set_buckets (<[b := ∅]> (buckets st)) st)
          end.

  (** [putObject(bucket, key, stream)]: no metadata argument. *)
Definition putObject (b k : string) (stream : list byte) : M unit :=
    await_ call (PutObject b k) in
    λ st, match buckets st !! b with
          | None => (Throw NoSuchBucket, st)
          | Some objs =>
              let o := mkStored stream (implicitMeta env) (storeClock env) in
              (Return (), set_buckets (<[b := <[k := o]> objs]> (buckets st)) st)
          end.

(** Reading a key with a GET: the answer of the store carries the S3
    error code, [NoSuchKey] for a missing key and [NoSuchBucket] for a
    missing bucket. *)
Definition lookup_object (b k : string) : M Stored := λ st,
    match buckets st !! b with
    | None => (Throw NoSuchBucket, st)
    | Some objs =>
        match objs !! k with
        | None => (Throw NoSuchKey, st)
        | Some o => (Return o, st)
        end
    end.

Definition getObject (b k : string) : M (list byte) :=
    await_ call (GetObject b k) in
    await o := lookup_object b k in
    ret (content o).

(** A stat is a HEAD request: a 404 answer has no body to carry an S3
    error code, and the client rejects with the code [NotFound], for a
    missing key as for a missing bucket. *)
Definition head_object (b k : string) : M Stored := λ st,
    match buckets st !! b with
    | None => (Throw NotFound, st)
    | Some objs =>
        match objs !! k with
        | None => (Throw NotFound, st)
        | Some o => (Return o, st)
        end
    end.

Definition statObject (b k : string) : M stat.t :=
    await_ call (StatObject b k) in
    await o := head_object b k in
    ret (stat.mk (stored_size o) (meta o) (modified o)).

  (** [listObjects(bucket, prefix, true)] returns a stream at once, it
      does not throw.  The stream yields the recursive listing of the keys
      that start with [prefix], in the store's order, and then ends; when
      the listing fails it yields the first [yielded env] of them and then
      fails, and with no bucket to list it fails before yielding.  A
      stream is the objects it yields and the error it ends with, if
      any. *)
Definition listObjects (b prefix : string) : M (list obj.t * option Err) := λ st,
    let all :=
      match buckets st !! b with
      | None => []
      | Some objs =>
          (λ ko, obj.mk ko.1 (stored_size ko.2) (modified ko.2)) <$>
          filter (λ ko, String.prefix prefix ko.1 = true) (map_to_list objs)
      end in
    let stream :=
      match fault env (ListObjects b prefix true) with
      | Some e => (take (yielded env) all, Some e)
      | None =>
          match buckets st !! b with
          | None => ([], Some NoSuchBucket)
          | Some _ => (all, None)
          end
      end in
    (Return stream, record (ListObjects b prefix true) st).

  (** Removing a key that is absent succeeds silently. *)
Definition removeObject (b k : string) : M unit :=
    await_ call (RemoveObject b k) in
    λ st, match buckets st !! b with
          | None => (Throw NoSuchBucket, st)
          | Some objs => (Return (), set_buckets (<[b := delete k objs]> (buckets st)) st)
          end.

Definition presignedPutObject (b k : string) (expiry : Z) : M string :=
    await_ call (PresignedPutObject b k expiry) in
    ret (sign env (PresignedPutObject b k expiry)).

Definition presignedGetObject (b k : string) (expiry : Z) : M string :=
    await_ call (PresignedGetObject b k expiry) in
    ret (sign env (PresignedGetObject b k expiry)).

Definition listen (port : Z) (host : string) : M unit :=
    call (Listen port host).
End Client.

(** Lift the outcome of a plugin call that does not touch the store. *)
Definition lift {A} (o : Outcome A) : M A := λ st, (o, st).

Definition dquote : string := String "034"%char "".

(** ** [src/index.js]: the streaming-proxy variant *)

Module Proxy.

Definition BUCKET_NAME : string := "my-bucket".

Section Handlers.
Variable env : Env.

Definition ensureBucket : M unit :=
  try_catch
    (await exists_ := bucketExists env BUCKET_NAME in
     if negb exists_ then
       await_ makeBucket env BUCKET_NAME "us-east-1" in
       console_log ("Bucket '" +:+ BUCKET_NAME +:+ "' created successfully")
     else
       console_log ("Bucket '" +:+ BUCKET_NAME +:+ "' already exists"))
    (λ err, console_error "Error with bucket:" err).

Definition get_health : M Reply :=
  ret (ok (JObj [("status", JStr "ok");
                 ("message", JStr "MinIO Fastify server is running")])).

(** The storage key of an upload: [`${Date.now()}-${filename}`]. *)
Definition uniqueFilename (filename : string) : string :=
  pretty (now env) +:+ "-" +:+ filename.

(** [POST /upload]; [request_file] is what [request.file()] settles to. *)
Definition post_upload (request_file : Outcome (option data.t)) : M Reply :=
  try_catch
    (await data := lift request_file in
     match data with
     | None => ret (send 400 (error_payload "No file uploaded"))
     | Some data =>
         let filename := data.filename data in
         let mimetype := data.mimetype data in
         await_ putObject env BUCKET_NAME (uniqueFilename filename) (data.file data) in
         ret (ok (JObj [("success", JBool true);
                        ("message", JStr "File uploaded successfully");
                        ("filename", JStr (uniqueFilename filename));
                        ("originalName", JStr filename);
                        ("mimetype", JStr mimetype)]))
     end)
    (λ error,
       await_ console_error "Upload error:" error in
       ret (send 500 (error_payload "Failed to upload file"))).

(** The headers of a successful download; Fastify keeps header names in
    lower case and the length is sent in decimal. *)
Definition file_headers (stat : stat.t) : list (string * string) :=
  [("content-type",
    or_else (stat.metaData stat !! "content-type") "application/octet-stream");
   ("content-length", pretty (stat.size stat))] ++
  (if truthy (stat.metaData stat !! "x-amz-meta-original-name") then
     [("content-disposition",
       "attachment; filename=" +:+ dquote +:+
       default "" (stat.metaData stat !! "x-amz-meta-original-name") +:+ dquote)]
   else []).

(** [GET /file/:filename] *)
Definition get_file (filename : string) : M Reply :=
  try_catch
    (await dataStream := getObject env BUCKET_NAME filename in
     await stat := statObject env BUCKET_NAME filename in
     ret (mkReply 200 (file_headers stat) (BStream dataStream)))
    (λ error,
       await_ console_error "Download error:" error in
       if code_is error "NoSuchKey" then
         ret (send 404 (error_payload "File not found"))
       else
         ret (send 500 (error_payload "Failed to retrieve file"))).

Definition full_entry (obj : obj.t) (stat : stat.t) : JSON :=
  JObj [("name", JStr (obj.name obj));
        ("originalName",
         JStr (or_else (stat.metaData stat !! "x-amz-meta-original-name") (obj.name obj)));
        ("size", JNum (obj.size obj));
        ("lastModified", JDate (obj.lastModified obj));
        ("contentType", opt_str (stat.metaData stat !! "content-type"))].

Definition basic_entry (obj : obj.t) : JSON :=
  JObj [("name", JStr (obj.name obj));
        ("size", JNum (obj.size obj));
        ("lastModified", JDate (obj.lastModified obj))].

(** [for await (const obj of stream) { ... }], with the array it pushes
    to threaded through: one turn per object that the stream yields, and
    the error of the stream, if any, thrown when it is reached. *)
Fixpoint for_await (stream : list obj.t) (failure : option Err)
    (objectsList : list JSON) : M (list JSON) :=
  match stream with
  | [] =>
      match failure with
      | Some e => throw e
      | None => ret objectsList
      end
  | obj :: rest =>
      await objectsList' :=
        try_catch
          (await stat := statObject env BUCKET_NAME (obj.name obj) in
           ret (objectsList ++ [full_entry obj stat])%list)
          (λ err, ret (objectsList ++ [basic_entry obj])%list) in
      for_await rest failure objectsList'
  end.

(** [GET /files] *)
Definition get_files : M Reply :=
  try_catch
    (await stream := listObjects env BUCKET_NAME "" in
     await objectsList := for_await stream.1 stream.2 [] in
     ret (ok (JObj [("bucket", JStr BUCKET_NAME);
                    ("files", JArr objectsList);
                    ("count", JNum (Z.of_nat (length objectsList)))])))
    (λ error,
       await_ console_error "List files error:" error in
       ret (send 500 (error_payload "Failed to list files"))).

(** [DELETE /file/:filename] *)
Definition delete_file (filename : string) : M Reply :=
  try_catch
    (await_ statObject env BUCKET_NAME filename in
     await_ removeObject env BUCKET_NAME filename in
     ret (ok (JObj [("success", JBool true);
                    ("message", JStr ("File '" +:+ filename +:+ "' deleted successfully"))])))
    (λ error,
       await_ console_error "Delete error:" error in
       if code_is error "NoSuchKey" then
         ret (send 404 (error_payload "File not found"))
       else
         ret (send 500 (error_payload "Failed to delete file"))).

(** [GET /upload-url/:filename] *)
Definition get_upload_url (filename : string) : M Reply :=
  try_catch
    (let expiry := 24 * 60 * 60 in
     await presignedUrl := presignedPutObject env BUCKET_NAME filename expiry in
     ret (ok (JObj [("uploadUrl", JStr presignedUrl);
                    ("filename", JStr filename);
                    ("expiresIn", JNum expiry)])))
    (λ error,
       await_ console_error "Presigned URL error:" error in
       ret (send 500 (error_payload "Failed to generate upload URL"))).

Definition start : M unit :=
  try_catch
    (await_ ensureBucket in
     await_ listen env 3000 "0.0.0.0" in
     await_ console_log "Server is running on http://localhost:3000" in
     await_ console_log "Available endpoints:" in
     await_ console_log "  POST /upload - Upload a file" in
     await_ console_log "  GET /file/:filename - Download a file" in
     await_ console_log "  GET /files - List all files" in
     await_ console_log "  DELETE /file/:filename - Delete a file" in
     await_ console_log "  GET /upload-url/:filename - Get presigned upload URL" in
     console_log "  GET /health - Health check")
    (λ err,
       await_ log_error err in
       process_exit 1).

(** The last line of the file, [start();]: nothing handles the promise.
    Node reports a rejected promise that nothing handles as an error and
    ends the process with code 1. *)
Definition main : State → State := λ st,
  match start st with
  | (Return _, st') => st'
  | (Throw e, st') =>
      mkState (buckets st') (trace st') (console st' ++ [Unhandled e]) (Some 1)
  end.

End Handlers.
End Proxy.

(** ** [src/unnamed/part_000]: the direct-upload variant *)

Module post.
(** An element of the [posts] array. *)
Record t : Type := mk { id : Z; title : JSON; description : JSON; fileKey : JSON }.

Definition to_json (p : t) : JSON :=
  JObj [("id", JNum (id p)); ("title", title p);
        ("description", description p); ("fileKey", fileKey p)].
End post.

Module Direct.

Definition BUCKET_NAME : string := "my-bucket".

(** The [TypeError] of destructuring [undefined] or [null]. *)
Definition TypeError : Err := mkErr None.

(** [POST /posts], on the shared [posts] array.  The handler has no
    [try]: an exception leaves it. *)
Definition post_posts (body : JSON) (posts : list post.t) : Outcome Reply * list post.t :=
  match body with
  | JUndef | JNull => (Throw TypeError, posts)
  | _ =>
      let post :=
        post.mk (Z.of_nat (length posts) + 1)
                (prop "title" body) (prop "description" body) (prop "fileKey" body) in
      (Return (ok (JObj [("success", JBool true);
                         ("message", JStr "Post created");
                         ("post", post.to_json post)])),
       (posts ++ [post])%list)
  end.

(** [GET /posts] *)
Definition get_posts (posts : list post.t) : Reply :=
  ok (JArr (post.to_json <$> posts)).

Section Handlers.
Variable env : Env.

Definition ensureBucket : M unit :=
  await exists_ := bucketExists env BUCKET_NAME in
  if negb exists_ then
    await_ makeBucket env BUCKET_NAME "us-east-1" in
    console_log ("Bucket '" +:+ BUCKET_NAME +:+ "' created")
  else
    ret ().

(** [GET /upload-url/:filename] *)
Definition get_upload_url (filename : string) : M Reply :=
  try_catch
    (let expiry := 60 * 5 in
     await presignedUrl := presignedPutObject env BUCKET_NAME filename expiry in
     ret (ok (JObj [("uploadUrl", JStr presignedUrl);
                    ("fileKey", JStr filename);
                    ("expiresIn", JNum expiry)])))
    (λ err,
       await_ log_error err in
       ret (send 500 (error_payload "Failed to create presigned URL"))).

(** [GET /download-url/:fileKey] *)
Definition get_download_url (fileKey : string) : M Reply :=
  try_catch
    (await url := presignedGetObject env BUCKET_NAME fileKey (60 * 5) in
     ret (ok (JObj [("url", JStr url)])))
    (λ err,
       await_ log_error err in
       ret (send 500 (error_payload "Failed to get download URL"))).

Definition start : M unit :=
  await_ ensureBucket in
  await_ listen env 3000 "0.0.0.0" in
  console_log "Server running on http://localhost:3000".

(** The last line of the file, [start();]: nothing handles the promise.
    Node reports a rejected promise that nothing handles as an error and
    ends the process with code 1. *)
Definition main : State → State := λ st,
  match start st with
  | (Return _, st') => st'
  | (Throw e, st') =>
      mkState (buckets st') (trace st') (console st' ++ [Unhandled e]) (Some 1)
  end.

End Handlers.
End Direct.

(** ** Abbreviations used in the statements *)

(** What the catch clause of [GET /file/:filename] sends for the error it
    caught. *)
Definition retrieve_failure (e : Err) : Reply :=
  if code_is e "NoSuchKey" then send 404 (error_payload "File not found")
  else send 500 (error_payload "Failed to retrieve file").

(** What the catch clause of [DELETE /file/:filename] sends. *)
Definition delete_failure (e : Err) : Reply :=
  if code_is e "NoSuchKey" then send 404 (error_payload "File not found")
  else send 500 (error_payload "Failed to delete file").

(** The JSON document of a reply, [undefined] for a stream. *)
Definition json (r : Reply) : JSON :=
  match body r with
  | BJson j => j
  | BStream _ => JUndef
  end.

(** What [statObject] reports for a stored object. *)
Definition stat_of (o : Stored) : stat.t :=
  stat.mk (stored_size o) (meta o) (modified o).

(** What [listObjects] reports for a stored object. *)
Definition listed (ko : string * Stored) : obj.t :=
  obj.mk ko.1 (stored_size ko.2) (modified ko.2).

Definition original_name : string := "x-amz-meta-original-name".

(** The summary that one turn of the listing loop pushes for [ob], given
    the objects of the bucket: the full one when the stat goes through. *)
Definition listing_entry (env : Env) (objs : gmap string Stored) (ob : obj.t) : JSON :=
  match fault env (StatObject Proxy.BUCKET_NAME (obj.name ob)) with
  | Some _ => Proxy.basic_entry ob
  | None =>
      match objs !! obj.name ob with
      | Some o => Proxy.full_entry ob (stat_of o)
      | None => Proxy.basic_entry ob
      end
  end.

(** The document that a successful [GET /files] returns. *)
Definition listing (files : list JSON) (count : Z) : Reply :=
  ok (JObj [("bucket", JStr Proxy.BUCKET_NAME);
            ("files", JArr files);
            ("count", JNum count)]).

(** The Post Record that the register is expected to create for the
    request body [b] when [n] records exist already. *)
Definition record_of (n : nat) (b : JSON) : post.t :=
  post.mk (Z.of_nat n + 1) (prop "title" b) (prop "description" b) (prop "fileKey" b).


(** The answer expected for the creation of a Post Record. *)
Definition created (p : post.t) : Outcome Reply :=
  Return (ok (JObj [("success", JBool true);
                    ("message", JStr "Post created");
                    ("post", post.to_json p)])).


(** Startup provisioning fails with [e]: at the existence check, or at
    the creation of the missing bucket. *)
Definition provisioning_fails (env : Env) (st : State) (e : Err) : Prop :=
  fault env (BucketExists "my-bucket") = Some e ∨
  (fault env (BucketExists "my-bucket") = None ∧
   buckets st !! "my-bucket" = None ∧
   fault env (MakeBucket "my-bucket" "us-east-1") = Some e).

(** ** Sequences of requests and sample inputs *)

(** [s.endsWith(suffix)] *)
Fixpoint ends_with (s suffix : string) : bool :=
  String.eqb s suffix ||
  match s with
  | EmptyString => false
  | String _ s' => ends_with s' suffix
  end.

(** Successive [POST /posts] requests against the same [posts] array. *)
Fixpoint appends (bodies : list JSON) (posts : list post.t)
  : list (Outcome Reply) * list post.t :=
  match bodies with
  | [] => ([], posts)
  | b :: rest =>
      let '(r, posts') := Direct.post_posts b posts in
      let '(rs, posts'') := appends rest posts' in
      (r :: rs, posts'')
  end.

Definition sample_sign (c : Call) : string :=
  match c with
  | PresignedPutObject b k expiry =>
      "http://localhost:9000/" +:+ b +:+ "/" +:+ k +:+ "?put&expires=" +:+ pretty expiry
  | PresignedGetObject b k expiry =>
      "http://localhost:9000/" +:+ b +:+ "/" +:+ k +:+ "?get&expires=" +:+ pretty expiry
  | _ => ""
  end.

(** A store that never fails, at a fixed instant. *)
Definition quiet : Env := mkEnv (λ _, None) 1700000000000 sample_sign ∅ 1700000000000 0.

(** A store where exactly the call [c] fails with [e]. *)
Definition failing (c : Call) (e : Err) : Env :=
  mkEnv (λ c', if bool_decide (c' = c) then Some e else None)
        1700000000000 sample_sign ∅ 1700000000000 0.

Definition no_bucket : State := mkState ∅ [] [] None.
Definition empty_bucket : State := mkState {[ "my-bucket" := ∅ ]} [] [] None.

Definition hi : list byte := [x68; x69].
Definition a_txt : data.t := data.mk "a.txt" "text/plain" hi.

Definition ECONNREFUSED : Err := mkErr (Some "ECONNREFUSED").

(** ** Further abbreviations *)

(** The object stored under key [k] of bucket [b], if any. *)
Definition object_at (st : State) (b k : string) : option Stored :=
  buckets st !! b ≫= (.!! k).

(** A decimal digit. *)
Definition is_digit (c : ascii) : bool :=
  (48 <=? nat_of_ascii c)%nat && (nat_of_ascii c <=? 57)%nat.

Fixpoint all_digits (s : string) : bool :=
  match s with
  | EmptyString => true
  | String c s' => is_digit c && all_digits s'
  end.

(** The identifiers of the register are 1, 2, 3, ... in order. *)
Definition sequential (posts : list post.t) : Prop :=
  post.id <$> posts = Z.of_nat <$> seq 1 (length posts).

(** The bodies that [POST /posts] can destructure. *)
Definition can_destructure (b : JSON) : bool :=
  match b with
  | JUndef | JNull => false
  | _ => true
  end.

(** * Verification *)

(** ** The client *)

Lemma call_ok env c st :
  fault env c = None → call env c st = (Return (), record c st).
Proof. intros H. unfold call. by rewrite H. Qed.

Lemma call_fail env c e st :
  fault env c = Some e → call env c st = (Throw e, record c st).
Proof. intros H. unfold call. by rewrite H. Qed.

Lemma putObject_ok env b k stream st objs :
  buckets st !! b = Some objs →
  fault env (PutObject b k) = None →
  putObject env b k stream st =
    (Return (),
     set_buckets (<[b := <[k := mkStored stream (implicitMeta env) (storeClock env)]> objs]> (buckets st))
                 (record (PutObject b k) st)).
Proof.
  intros Hb Hf. unfold putObject, bind. rewrite (call_ok _ _ _ Hf).
  cbn. by rewrite Hb.
Qed.

Lemma getObject_ok env b k st objs o :
  buckets st !! b = Some objs → objs !! k = Some o →
  fault env (GetObject b k) = None →
  getObject env b k st = (Return (content o), record (GetObject b k) st).
Proof.
  intros Hb Hk Hf. unfold getObject, bind. rewrite (call_ok _ _ _ Hf).
  unfold lookup_object. cbn. by rewrite Hb, Hk.
Qed.

Lemma getObject_missing env b k st objs :
  buckets st !! b = Some objs → objs !! k = None →
  fault env (GetObject b k) = None →
  getObject env b k st = (Throw NoSuchKey, record (GetObject b k) st).
Proof.
  intros Hb Hk Hf. unfold getObject, bind. rewrite (call_ok _ _ _ Hf).
  unfold lookup_object. cbn. by rewrite Hb, Hk.
Qed.

Lemma getObject_fail env b k st e :
  fault env (GetObject b k) = Some e →
  getObject env b k st = (Throw e, record (GetObject b k) st).
Proof. intros Hf. unfold getObject, bind. by rewrite (call_fail _ _ _ _ Hf). Qed.

Lemma statObject_ok env b k st objs o :
  buckets st !! b = Some objs → objs !! k = Some o →
  fault env (StatObject b k) = None →
  statObject env b k st =
    (Return (stat.mk (stored_size o) (meta o) (modified o)), record (StatObject b k) st).
Proof.
  intros Hb Hk Hf. unfold statObject, bind. rewrite (call_ok _ _ _ Hf).
  unfold head_object. cbn. by rewrite Hb, Hk.
Qed.

Lemma statObject_missing env b k st objs :
  buckets st !! b = Some objs → objs !! k = None →
  fault env (StatObject b k) = None →
  statObject env b k st = (Throw NotFound, record (StatObject b k) st).
Proof.
  intros Hb Hk Hf. unfold statObject, bind. rewrite (call_ok _ _ _ Hf).
  unfold head_object. cbn. by rewrite Hb, Hk.
Qed.

Lemma statObject_fail env b k st e :
  fault env (StatObject b k) = Some e →
  statObject env b k st = (Throw e, record (StatObject b k) st).
Proof. intros Hf. unfold statObject, bind. by rewrite (call_fail _ _ _ _ Hf). Qed.

(** A read leaves the buckets alone. *)
Lemma statObject_buckets env b k st :
  buckets (statObject env b k st).2 = buckets st.
Proof.
  unfold statObject, bind, call, head_object, ret.
  destruct (fault env _); cbn; [done|].
  destruct (buckets st !! b) as [objs|]; cbn; [|done].
  by destruct (objs !! k).
Qed.

(** ** Store and Retrieve *)

Lemma post_upload_ok env st d objs :
  buckets st !! Proxy.BUCKET_NAME = Some objs →
  fault env (PutObject Proxy.BUCKET_NAME (Proxy.uniqueFilename env (data.filename d))) = None →
  Proxy.post_upload env (Return (Some d)) st =
    (Return (ok (JObj [("success", JBool true);
                       ("message", JStr "File uploaded successfully");
                       ("filename", JStr (Proxy.uniqueFilename env (data.filename d)));
                       ("originalName", JStr (data.filename d));
                       ("mimetype", JStr (data.mimetype d))])),
     set_buckets
       (<[Proxy.BUCKET_NAME :=
            <[Proxy.uniqueFilename env (data.filename d) :=
                mkStored (data.file d) (implicitMeta env) (storeClock env)]> objs]> (buckets st))
       (record (PutObject Proxy.BUCKET_NAME (Proxy.uniqueFilename env (data.filename d))) st)).
Proof.
  intros Hb Hf. unfold Proxy.post_upload, try_catch, bind, lift.
  by rewrite (putObject_ok _ _ _ _ _ _ Hb Hf).
Qed.

Lemma get_file_ok env st k objs o :
  buckets st !! Proxy.BUCKET_NAME = Some objs → objs !! k = Some o →
  fault env (GetObject Proxy.BUCKET_NAME k) = None →
  fault env (StatObject Proxy.BUCKET_NAME k) = None →
  Proxy.get_file env k st =
    (Return (mkReply 200
               (Proxy.file_headers (stat.mk (stored_size o) (meta o) (modified o)))
               (BStream (content o))),
     record (StatObject Proxy.BUCKET_NAME k) (record (GetObject Proxy.BUCKET_NAME k) st)).
Proof.
  intros Hb Hk Hg Hs. unfold Proxy.get_file, try_catch, bind.
  rewrite (getObject_ok _ _ _ _ _ _ Hb Hk Hg).
  by rewrite (statObject_ok _ _ _ _ objs o).
Qed.

Lemma get_file_get_throws env st k e st1 :
  getObject env Proxy.BUCKET_NAME k st = (Throw e, st1) →
  Proxy.get_file env k st = (Return (retrieve_failure e), say (LogError "Download error:" e) st1).
Proof.
  intros H. unfold Proxy.get_file, try_catch, bind. rewrite H.
  unfold retrieve_failure, console_error, ret. by destruct (code_is e "NoSuchKey").
Qed.

Lemma get_file_stat_throws env st k bytes st1 e st2 :
  getObject env Proxy.BUCKET_NAME k st = (Return bytes, st1) →
  statObject env Proxy.BUCKET_NAME k st1 = (Throw e, st2) →
  Proxy.get_file env k st = (Return (retrieve_failure e), say (LogError "Download error:" e) st2).
Proof.
  intros H1 H2. unfold Proxy.get_file, try_catch, bind. rewrite H1, H2.
  unfold retrieve_failure, console_error, ret. by destruct (code_is e "NoSuchKey").
Qed.

Lemma retrieve_failure_status e : status (retrieve_failure e) ≠ 200.
Proof. unfold retrieve_failure. by destruct (code_is e "NoSuchKey"). Qed.


(** Retrieve of a stored object either streams it or reports a failure of
    the store. *)
Lemma get_file_cases env st k objs o :
  buckets st !! Proxy.BUCKET_NAME = Some objs → objs !! k = Some o →
  ∃ r st', Proxy.get_file env k st = (Return r, st') ∧
    (r = mkReply 200 (Proxy.file_headers (stat_of o)) (BStream (content o)) ∨
     ∃ e, r = retrieve_failure e).
Proof.
  intros Hb Hk.
  destruct (fault env (GetObject Proxy.BUCKET_NAME k)) as [e|] eqn:Hg.
  { eexists _, _. split; [|right; by exists e].
    apply get_file_get_throws. by apply getObject_fail. }
  destruct (fault env (StatObject Proxy.BUCKET_NAME k)) as [e|] eqn:Hs.
  { eexists _, _. split; [|right; by exists e].
    eapply get_file_stat_throws; [by eapply getObject_ok|by apply statObject_fail]. }
  eexists _, _. split; [by eapply get_file_ok|by left].
Qed.

Lemma file_headers_disposition s :
  assoc "content-disposition" (Proxy.file_headers s) =
    if truthy (stat.metaData s !! original_name) then
      Some ("attachment; filename=" +:+ dquote +:+
            default "" (stat.metaData s !! original_name) +:+ dquote)
    else None.
Proof.
  unfold Proxy.file_headers, original_name.
  by destruct (truthy (stat.metaData s !! "x-amz-meta-original-name")).
Qed.

Lemma file_headers_type s :
  assoc "content-type" (Proxy.file_headers s) =
    Some (or_else (stat.metaData s !! "content-type") "application/octet-stream").
Proof. done. Qed.

Lemma truthy_spec v : truthy v = true ↔ ∃ n, v = Some n ∧ n ≠ "".
Proof.
  unfold truthy. destruct v as [n|].
  - destruct (String.eqb_spec n ""); cbn; split.
    + done.
    + intros (n' & [= <-] & Hn). done.
    + intros _. eauto.
    + done.
  - split; [done|]. by intros (n & ? & _).
Qed.

(** Store followed by Retrieve of the key it returned. *)
Lemma upload_then_download env st d objs :
  buckets st !! Proxy.BUCKET_NAME = Some objs →
  fault env (PutObject Proxy.BUCKET_NAME (Proxy.uniqueFilename env (data.filename d))) = None →
  fault env (GetObject Proxy.BUCKET_NAME (Proxy.uniqueFilename env (data.filename d))) = None →
  fault env (StatObject Proxy.BUCKET_NAME (Proxy.uniqueFilename env (data.filename d))) = None →
  ∃ r1 st1 st2,
    Proxy.post_upload env (Return (Some d)) st = (Return r1, st1) ∧
    status r1 = 200 ∧
    Proxy.get_file env (Proxy.uniqueFilename env (data.filename d)) st1 =
      (Return (mkReply 200
                 (Proxy.file_headers
                    (stat.mk (Z.of_nat (length (data.file d))) (implicitMeta env) (storeClock env)))
                 (BStream (data.file d))),
       st2).
Proof.
  intros Hb Hp Hg Hs. eexists _, _, _.
  split; [by apply (post_upload_ok _ _ _ objs)|]. split; [done|].
  pose (o := mkStored (data.file d) (implicitMeta env) (storeClock env)).
  apply (get_file_ok env _ _
           (<[Proxy.uniqueFilename env (data.filename d) := o]> objs) o);
    [|by apply lookup_insert_eq|done|done].
  cbn. apply lookup_insert_eq.
Qed.

(** ** The naming policy *)

Lemma ends_with_unfold s suffix :
  ends_with s suffix =
    String.eqb s suffix ||
    match s with
    | EmptyString => false
    | String _ s' => ends_with s' suffix
    end.
Proof. by destruct s. Qed.

Lemma ends_with_app p s : ends_with (p +:+ s) s = true.
Proof.
  induction p as [|a p IH].
  - rewrite ends_with_unfold. change ("" +:+ s) with s.
    by rewrite String.eqb_refl.
  - change (ends_with (String a (p +:+ s)) s = true).
    rewrite ends_with_unfold. cbv iota. rewrite IH. apply orb_true_r.
Qed.

Lemma string_length_app s t :
  String.length (s +:+ t) = (String.length s + String.length t)%nat.
Proof. induction s as [|a s IH]; simpl; [done|]. by f_equal. Qed.

Lemma string_app_inv_tail s1 s2 t : s1 +:+ t = s2 +:+ t → s1 = s2.
Proof.
  revert s2. induction s1 as [|a s1 IH]; intros [|b s2] H.
  - done.
  - apply (f_equal String.length) in H.
    rewrite !string_length_app in H. simpl in H. lia.
  - apply (f_equal String.length) in H.
    rewrite !string_length_app in H. simpl in H. lia.
  - injection H as -> H. f_equal. by apply IH.
Qed.

(** Two instants give the same key for a filename only if they are the
    same instant. *)
Lemma uniqueFilename_instant env1 env2 f :
  Proxy.uniqueFilename env1 f = Proxy.uniqueFilename env2 f → now env1 = now env2.
Proof.
  unfold Proxy.uniqueFilename. intros H.
  apply string_app_inv_tail in H. by apply (inj pretty).
Qed.

(** C8. For every client-supplied filename, a successful upload answers
    with, and stores the stream under, the key made of the decimal
    millisecond timestamp, the delimiter "-" and the original filename;
    the key ends in "-" followed by the filename (so in "-a.txt" for an
    upload of "a.txt"), and another instant gives another key. *)
Theorem naming_policy env st d objs :
  buckets st !! Proxy.BUCKET_NAME = Some objs →
  fault env (PutObject Proxy.BUCKET_NAME (Proxy.uniqueFilename env (data.filename d))) = None →
  ∃ r st',
    Proxy.post_upload env (Return (Some d)) st = (Return r, st') ∧
    prop "filename" (json r) = JStr (pretty (now env) +:+ "-" +:+ data.filename d) ∧
    (∃ stored o,
       buckets st' !! Proxy.BUCKET_NAME = Some stored ∧
       stored !! (pretty (now env) +:+ "-" +:+ data.filename d) = Some o ∧
       content o = data.file d) ∧
    ends_with (pretty (now env) +:+ "-" +:+ data.filename d) ("-" +:+ data.filename d) = true ∧
    (data.filename d = "a.txt" →
     ends_with (pretty (now env) +:+ "-" +:+ data.filename d) "-a.txt" = true) ∧
    (∀ env', now env' ≠ now env →
             Proxy.uniqueFilename env' (data.filename d) ≠
             pretty (now env) +:+ "-" +:+ data.filename d).
Proof.
  intros Hb Hf. eexists _, _.
  split; [by apply (post_upload_ok _ _ _ objs)|].
  split; [done|]. split.
  { eexists _, _. cbn. split; [apply lookup_insert_eq|].
    split; [apply lookup_insert_eq|done]. }
  split; [apply ends_with_app|]. split.
  - intros ->. apply (ends_with_app (pretty (now env)) "-a.txt").
  - intros env' Hne Heq. apply Hne.
    by apply (uniqueFilename_instant env' env (data.filename d)).
Qed.

Lemma naming_policy_witness :
  ∃ r st',
    Proxy.post_upload quiet (Return (Some a_txt)) empty_bucket = (Return r, st') ∧
    prop "filename" (json r) = JStr "1700000000000-a.txt" ∧
    ends_with "1700000000000-a.txt" "-a.txt" = true.
Proof.
  destruct (naming_policy quiet empty_bucket a_txt ∅) as (r & st' & H & Hk & _ & He & _).
  - reflexivity.
  - reflexivity.
  - exists r, st'. split; [exact H|]. split; [exact Hk|exact He].
Defined.

(** ** Store then Retrieve, and the metadata *)

(** The content-type of a retrieved upload is what the client recorded on
    its own account, or the generic binary type: the declared type of the
    upload plays no part in it. *)
Lemma retrieved_type_ignores_declared env st d objs r st' :
  buckets st !! Proxy.BUCKET_NAME = Some objs →
  fault env (PutObject Proxy.BUCKET_NAME (Proxy.uniqueFilename env (data.filename d))) = None →
  Proxy.get_file env (Proxy.uniqueFilename env (data.filename d))
    (Proxy.post_upload env (Return (Some d)) st).2 = (Return r, st') →
  status r = 200 →
  body r = BStream (data.file d) ∧
  header "content-type" r =
    Some (or_else (implicitMeta env !! "content-type") "application/octet-stream").
Proof.
  intros Hb Hp Hget H200.
  rewrite (post_upload_ok _ _ _ objs Hb Hp) in Hget. cbn [snd] in Hget.
  pose (o := mkStored (data.file d) (implicitMeta env) (storeClock env)).
  destruct (get_file_cases env
              (set_buckets
                 (<[Proxy.BUCKET_NAME :=
                      <[Proxy.uniqueFilename env (data.filename d) := o]> objs]> (buckets st))
                 (record (PutObject Proxy.BUCKET_NAME
                            (Proxy.uniqueFilename env (data.filename d))) st))
              (Proxy.uniqueFilename env (data.filename d))
              (<[Proxy.uniqueFilename env (data.filename d) := o]> objs) o)
    as (r' & st'' & Hrun & Hr).
  { cbn. apply lookup_insert_eq. }
  { apply lookup_insert_eq. }
  unfold o in Hrun. rewrite Hrun in Hget. injection Hget as <- _.
  destruct Hr as [->|[e ->]].
  - done.
  - by destruct (retrieve_failure_status e).
Qed.

(** C1. At the upload of "a.txt" with content "hi" and declared type
    text/plain into an empty bucket, Store answers with the key
    "1700000000000-a.txt" and the declared type, and Retrieve on that key
    streams "hi" back, but with content-type application/octet-stream and
    no content-disposition: the put carried neither the declared type nor
    the original filename. *)
Theorem store_then_retrieve_a_txt :
  let up := Proxy.post_upload quiet (Return (Some a_txt)) empty_bucket in
  let down := Proxy.get_file quiet "1700000000000-a.txt" up.2 in
  up.1 = Return (ok (JObj [("success", JBool true);
                           ("message", JStr "File uploaded successfully");
                           ("filename", JStr "1700000000000-a.txt");
                           ("originalName", JStr "a.txt");
                           ("mimetype", JStr "text/plain")])) ∧
  trace up.2 = [PutObject "my-bucket" "1700000000000-a.txt"] ∧
  (buckets up.2 !! "my-bucket") ≫= (.!! "1700000000000-a.txt") =
    Some (mkStored hi ∅ 1700000000000) ∧
  down.1 = Return (mkReply 200
                     [("content-type", "application/octet-stream");
                      ("content-length", "2")]
                     (BStream hi)).
Proof. repeat split; vm_compute; reflexivity. Qed.

(** The guard of Retrieve looks the metadata up under the header name
    [x-amz-meta-original-name]: a successful Retrieve sets the
    content-disposition header exactly when the metadata, as the client
    reports it, has a non-empty entry under that very name. *)
Lemma disposition_follows_guard env st k objs o r st' :
  buckets st !! Proxy.BUCKET_NAME = Some objs → objs !! k = Some o →
  Proxy.get_file env k st = (Return r, st') → status r = 200 →
  (is_Some (header "content-disposition" r) ↔
   ∃ n, meta o !! original_name = Some n ∧ n ≠ "").
Proof.
  intros Hb Hk Hrun H200.
  destruct (get_file_cases env st k objs o Hb Hk) as (r' & st'' & Hrun' & Hr).
  rewrite Hrun' in Hrun. injection Hrun as <- _.
  destruct Hr as [->|[e ->]].
  - unfold header. cbn [headers]. rewrite file_headers_disposition.
    rewrite <- truthy_spec. cbn [stat_of stat.metaData].
    destruct (truthy (meta o !! original_name)).
    + split; [done|]. intros _. by eexists.
    + split; [by intros [? [=]]|done].
  - by destruct (retrieve_failure_status e).
Qed.

(** The client reports a header under the name that the guard looks up
    only when the header is named with the prefix twice. *)
Lemma strip_prefix_Some p : ∀ s t, strip_prefix p s = Some t → s = p +:+ t.
Proof.
  induction p as [|a p IH]; intros s t H; cbn in H.
  - by injection H as ->.
  - destruct s as [|b s]; [done|].
    destruct (Ascii.eqb_spec a b) as [->|]; [|done].
    by rewrite (IH s t H).
Qed.

Lemma reported_name_guard h :
  reported_name h = original_name → h = amz_meta_prefix +:+ original_name.
Proof.
  unfold reported_name. destruct (strip_prefix amz_meta_prefix h) as [t|] eqn:Hs; cbn.
  - intros <-. by apply strip_prefix_Some.
  - intros ->. by vm_compute in Hs.
Qed.

(** No object gets an entry under the name of the guard from an
    [x-amz-meta-original-name] header, or from any header but the one
    with the doubled prefix. *)
Lemma from_headers_guard hs :
  amz_meta_prefix +:+ original_name ∉ hs.*1 →
  from_headers hs !! original_name = None.
Proof.
  intros Hnot. unfold from_headers. apply not_elem_of_list_to_map_1.
  rewrite <- list_fmap_compose. intros Hin.
  apply list_elem_of_fmap in Hin as ([h v] & Heq & Hin). cbn in Heq.
  symmetry in Heq. apply reported_name_guard in Heq. subst h.
  apply Hnot. apply list_elem_of_fmap. by exists (amz_meta_prefix +:+ original_name, v).
Qed.

(** C10. An object stored with the original name a.txt in its metadata
    (the header x-amz-meta-original-name, which the client reports under
    the name original-name) is retrieved with status 200 and with no
    content-disposition header: the guard of Retrieve looks for the name
    with its prefix and finds nothing.  An object uploaded through Store
    is retrieved without that header as well. *)
Theorem original_name_entry_sets_no_disposition :
  let hs := [("content-type", "text/plain"); ("x-amz-meta-original-name", "a.txt")] in
  let o := mkStored hi (from_headers hs) 0 in
  let st := mkState {[ "my-bucket" := {[ "k" := o ]} ]} [] [] None in
  let up := Proxy.post_upload quiet (Return (Some a_txt)) empty_bucket in
  meta o !! "original-name" = Some "a.txt" ∧
  meta o !! "x-amz-meta-original-name" = None ∧
  (Proxy.get_file quiet "k" st).1 =
    Return (mkReply 200 [("content-type", "text/plain"); ("content-length", "2")]
                    (BStream hi)) ∧
  (Proxy.get_file quiet "1700000000000-a.txt" up.2).1 =
    Return (mkReply 200 [("content-type", "application/octet-stream");
                         ("content-length", "2")]
                    (BStream hi)).
Proof. repeat split; vm_compute; reflexivity. Qed.

(** ** Retrieve: not found against other failures *)

(** C6. Retrieve of a key that is absent from the bucket answers 404
    "File not found"; an error of the store with any other code, thrown by
    the get or by the stat, answers 500 "Failed to retrieve file"; and a
    successful Retrieve of an object with no recorded content-type
    carries the generic binary type. *)
Theorem retrieve_outcomes env st k :
  (∀ objs,
     buckets st !! Proxy.BUCKET_NAME = Some objs → objs !! k = None →
     fault env (GetObject Proxy.BUCKET_NAME k) = None →
     (Proxy.get_file env k st).1 = Return (send 404 (error_payload "File not found"))) ∧
  (∀ e st1,
     getObject env Proxy.BUCKET_NAME k st = (Throw e, st1) →
     code_is e "NoSuchKey" = false →
     (Proxy.get_file env k st).1 =
       Return (send 500 (error_payload "Failed to retrieve file"))) ∧
  (∀ bytes st1 e st2,
     getObject env Proxy.BUCKET_NAME k st = (Return bytes, st1) →
     statObject env Proxy.BUCKET_NAME k st1 = (Throw e, st2) →
     code_is e "NoSuchKey" = false →
     (Proxy.get_file env k st).1 =
       Return (send 500 (error_payload "Failed to retrieve file"))) ∧
  (∀ objs o r st',
     buckets st !! Proxy.BUCKET_NAME = Some objs → objs !! k = Some o →
     Proxy.get_file env k st = (Return r, st') → status r = 200 →
     header "content-type" r =
       Some (or_else (meta o !! "content-type") "application/octet-stream") ∧
     (meta o !! "content-type" = None →
      header "content-type" r = Some "application/octet-stream")).
Proof.
  split; [|split; [|split]].
  - intros objs Hb Hk Hf.
    by rewrite (get_file_get_throws _ _ _ _ _ (getObject_missing _ _ _ _ _ Hb Hk Hf)).
  - intros e st1 Hget Hcode. rewrite (get_file_get_throws _ _ _ _ _ Hget).
    unfold retrieve_failure. by rewrite Hcode.
  - intros bytes st1 e st2 Hget Hstat Hcode.
    rewrite (get_file_stat_throws _ _ _ _ _ _ _ Hget Hstat).
    unfold retrieve_failure. by rewrite Hcode.
  - intros objs o r st' Hb Hk Hrun H200.
    destruct (get_file_cases env st k objs o Hb Hk) as (r' & st'' & Hrun' & Hr).
    rewrite Hrun' in Hrun. injection Hrun as <- _.
    destruct Hr as [->|[e ->]]; [|by destruct (retrieve_failure_status e)].
    unfold header. cbn [headers]. rewrite file_headers_type.
    cbn [stat_of stat.metaData]. split; [done|]. by intros ->.
Qed.

Lemma retrieve_outcomes_witness :
  let o := mkStored hi ∅ 0 in
  let st := mkState {[ "my-bucket" := {[ "k" := o ]} ]} [] [] None in
  (Proxy.get_file quiet "does-not-exist" empty_bucket).1 =
    Return (send 404 (error_payload "File not found")) ∧
  (Proxy.get_file (failing (GetObject "my-bucket" "k") ECONNREFUSED) "k" st).1 =
    Return (send 500 (error_payload "Failed to retrieve file")) ∧
  (Proxy.get_file (failing (StatObject "my-bucket" "k") ECONNREFUSED) "k" st).1 =
    Return (send 500 (error_payload "Failed to retrieve file")) ∧
  header "content-type" (mkReply 200 (Proxy.file_headers (stat_of o)) (BStream hi)) =
    Some "application/octet-stream".
Proof.
  intros o st. split; [|split; [|split]].
  - apply (proj1 (retrieve_outcomes quiet empty_bucket "does-not-exist") ∅); reflexivity.
  - apply (proj1 (proj2 (retrieve_outcomes (failing (GetObject "my-bucket" "k") ECONNREFUSED)
                           st "k")) ECONNREFUSED (record (GetObject "my-bucket" "k") st));
      reflexivity.
  - apply (proj1 (proj2 (proj2 (retrieve_outcomes
                                  (failing (StatObject "my-bucket" "k") ECONNREFUSED) st "k")))
             hi (record (GetObject "my-bucket" "k") st) ECONNREFUSED
             (record (StatObject "my-bucket" "k") (record (GetObject "my-bucket" "k") st)));
      reflexivity.
  - apply (proj2 (proj2 (proj2 (retrieve_outcomes quiet st "k"))) {[ "k" := o ]} o
             (mkReply 200 (Proxy.file_headers (stat_of o)) (BStream hi))
             (record (StatObject "my-bucket" "k") (record (GetObject "my-bucket" "k") st)));
      reflexivity.
Defined.

(** ** Delete *)

Lemma removeObject_trace env b k st :
  trace (removeObject env b k st).2 = trace st ++ [RemoveObject b k].
Proof.
  unfold removeObject, bind, call.
  destruct (fault env _); cbn; [done|].
  by destruct (buckets st !! b).
Qed.

Lemma statObject_trace env b k st :
  trace (statObject env b k st).2 = trace st ++ [StatObject b k].
Proof.
  unfold statObject, bind, call, head_object, ret.
  destruct (fault env _); cbn; [done|].
  destruct (buckets st !! b) as [objs|]; cbn; [|done].
  by destruct (objs !! k).
Qed.

(** When the stat throws, Delete answers from its catch clause and the
    remove is not issued. *)
Lemma delete_file_stat_throws env st k e st1 :
  statObject env Proxy.BUCKET_NAME k st = (Throw e, st1) →
  Proxy.delete_file env k st = (Return (delete_failure e), say (LogError "Delete error:" e) st1).
Proof.
  intros H. unfold Proxy.delete_file, try_catch, bind. rewrite H.
  unfold delete_failure, console_error, ret. by destruct (code_is e "NoSuchKey").
Qed.

(** The calls of one Delete: a stat, then at most one remove. *)
Lemma delete_file_calls env st k :
  trace (Proxy.delete_file env k st).2 = trace st ++ [StatObject Proxy.BUCKET_NAME k] ∨
  trace (Proxy.delete_file env k st).2 =
    trace st ++ [StatObject Proxy.BUCKET_NAME k; RemoveObject Proxy.BUCKET_NAME k].
Proof.
  pose proof (statObject_trace env Proxy.BUCKET_NAME k st) as Hs.
  destruct (statObject env Proxy.BUCKET_NAME k st) as [[s|e] st1] eqn:Hstat; cbn in Hs.
  - right.
    pose proof (removeObject_trace env Proxy.BUCKET_NAME k st1) as Hr.
    unfold Proxy.delete_file, try_catch, bind. rewrite Hstat.
    destruct (removeObject env Proxy.BUCKET_NAME k st1) as [[[]|e] st2]; cbn in *.
    + rewrite Hr, Hs. by rewrite <- app_assoc.
    + destruct (code_is e "NoSuchKey"); cbn; rewrite Hr, Hs; by rewrite <- app_assoc.
  - left. by rewrite (delete_file_stat_throws _ _ _ _ _ Hstat).
Qed.

(** C5. Delete issues the stat before anything else and at most one
    remove after it.  For a key that is absent from the bucket the stat
    is rejected with the code NotFound, which the handler does not take
    for a missing file: it answers 500 with the payload "Failed to delete
    file", not 404; its only call is the stat (no remove is issued) and
    the buckets are left as they were. *)
Theorem delete_missing_key_is_500 env st k objs :
  buckets st !! Proxy.BUCKET_NAME = Some objs →
  objs !! k = None →
  fault env (StatObject Proxy.BUCKET_NAME k) = None →
  (∃ st',
     Proxy.delete_file env k st =
       (Return (send 500 (error_payload "Failed to delete file")), st') ∧
     trace st' = trace st ++ [StatObject Proxy.BUCKET_NAME k] ∧
     console st' = console st ++ [LogError "Delete error:" NotFound] ∧
     buckets st' = buckets st) ∧
  (∀ env' st0 k0,
     trace (Proxy.delete_file env' k0 st0).2 =
       trace st0 ++ [StatObject Proxy.BUCKET_NAME k0] ∨
     trace (Proxy.delete_file env' k0 st0).2 =
       trace st0 ++ [StatObject Proxy.BUCKET_NAME k0; RemoveObject Proxy.BUCKET_NAME k0]).
Proof.
  intros Hb Hk Hf. split; [|intros; apply delete_file_calls].
  eexists. split.
  - by rewrite (delete_file_stat_throws _ _ _ _ _ (statObject_missing _ _ _ _ _ Hb Hk Hf)).
  - done.
Qed.

Lemma delete_missing_key_is_500_witness :
  ∃ st',
    Proxy.delete_file quiet "does-not-exist" empty_bucket =
      (Return (send 500 (error_payload "Failed to delete file")), st') ∧
    trace st' = [StatObject "my-bucket" "does-not-exist"] ∧
    console st' = [LogError "Delete error:" NotFound] ∧
    buckets st' = buckets empty_bucket.
Proof.
  apply (proj1 (delete_missing_key_is_500 quiet empty_bucket "does-not-exist" ∅
                  eq_refl eq_refl eq_refl)).
Defined.

(** ** List *)

Lemma filter_all {A} (P : A → Prop) `{∀ x, Decision (P x)} (l : list A) :
  (∀ x, P x) → filter P l = l.
Proof.
  intros HP. induction l as [|x l IH]; [done|].
  rewrite filter_cons_True by done. by rewrite IH.
Qed.

Lemma prefix_empty s : String.prefix "" s = true.
Proof. by destruct s. Qed.

Lemma listObjects_all env st objs :
  buckets st !! Proxy.BUCKET_NAME = Some objs →
  fault env (ListObjects Proxy.BUCKET_NAME "" true) = None →
  listObjects env Proxy.BUCKET_NAME "" st =
    (Return (listed <$> map_to_list objs, @None Err),
     record (ListObjects Proxy.BUCKET_NAME "" true) st).
Proof.
  intros Hb Hf. unfold listObjects. rewrite Hb, Hf.
  by rewrite filter_all by (intros; apply prefix_empty).
Qed.

(** One turn of the loop never throws: a failed stat is caught. *)
Lemma for_await_run env objs stream : ∀ acc st,
  buckets st !! Proxy.BUCKET_NAME = Some objs →
  ∃ st',
    Proxy.for_await env stream None acc st =
      (Return (acc ++ (listing_entry env objs <$> stream)), st') ∧
    buckets st' = buckets st.
Proof.
  induction stream as [|ob rest IH]; intros acc st Hb.
  - exists st. cbn. by rewrite app_nil_r.
  - cbn [Proxy.for_await]. unfold bind at 1, try_catch, bind at 1.
    assert (Hentry :
      ∃ st1, buckets st1 = buckets st ∧
        match statObject env Proxy.BUCKET_NAME (obj.name ob) st with
        | (Return s, st0) => ret (acc ++ [Proxy.full_entry ob s]) st0
        | (Throw e, st0) => ret (acc ++ [Proxy.basic_entry ob]) st0
        end = (Return (acc ++ [listing_entry env objs ob]), st1)).
    { unfold listing_entry.
      destruct (fault env (StatObject Proxy.BUCKET_NAME (obj.name ob))) as [e|] eqn:Hf.
      - rewrite (statObject_fail _ _ _ _ _ Hf).
        by exists (record (StatObject Proxy.BUCKET_NAME (obj.name ob)) st).
      - destruct (objs !! obj.name ob) as [o|] eqn:Hk.
        + rewrite (statObject_ok _ _ _ _ _ _ Hb Hk Hf).
          by exists (record (StatObject Proxy.BUCKET_NAME (obj.name ob)) st).
        + rewrite (statObject_missing _ _ _ _ _ Hb Hk Hf).
          by exists (record (StatObject Proxy.BUCKET_NAME (obj.name ob)) st). }
    destruct Hentry as (st1 & Hb1 & Hstep).
    destruct (statObject env Proxy.BUCKET_NAME (obj.name ob) st) as [[s|e] st0];
      cbn in Hstep |- *; injection Hstep as Hacc <-; rewrite Hacc;
      (destruct (IH (acc ++ [listing_entry env objs ob]) st0) as (st' & Hrun & Hb');
       [by rewrite Hb1|];
       exists st'; rewrite Hrun, <- app_assoc; split; [done|by rewrite Hb', Hb1]).
Qed.

Lemma get_files_run env st objs :
  buckets st !! Proxy.BUCKET_NAME = Some objs →
  fault env (ListObjects Proxy.BUCKET_NAME "" true) = None →
  ∃ st',
    Proxy.get_files env st =
      (Return (listing (listing_entry env objs <$> (listed <$> map_to_list objs))
                       (Z.of_nat (size objs))),
       st') ∧
    buckets st' = buckets st.
Proof.
  intros Hb Hf. unfold Proxy.get_files, try_catch, bind at 1.
  rewrite (listObjects_all _ _ _ Hb Hf). unfold bind.
  cbn [fst snd].
  destruct (for_await_run env objs (listed <$> map_to_list objs) []
              (record (ListObjects Proxy.BUCKET_NAME "" true) st) Hb)
    as (st' & Hrun & Hb').
  rewrite Hrun. exists st'. split; [|done].
  unfold ret, listing. cbn [app].
  by rewrite !length_fmap, length_map_to_list.
Qed.

(** The summary of a listed object, by the fate of its stat. *)
Lemma listing_entry_listed env objs k o :
  objs !! k = Some o →
  listing_entry env objs (listed (k, o)) =
    match fault env (StatObject Proxy.BUCKET_NAME k) with
    | Some _ => Proxy.basic_entry (listed (k, o))
    | None => Proxy.full_entry (listed (k, o)) (stat_of o)
    end.
Proof. intros Hk. unfold listing_entry. cbn. by rewrite Hk. Qed.

Lemma listing_entry_name env objs ob :
  prop "name" (listing_entry env objs ob) = JStr (obj.name ob).
Proof.
  unfold listing_entry.
  destruct (fault env _); [done|]. by destruct (objs !! obj.name ob).
Qed.



(** C9. When the listing goes through, an object whose stat succeeds and
    whose metadata has no original-name entry is listed with its storage
    key as the originalName field: the field is present, and it holds the
    key. *)
Theorem list_original_name_fallback env st objs k o :
  buckets st !! Proxy.BUCKET_NAME = Some objs →
  fault env (ListObjects Proxy.BUCKET_NAME "" true) = None →
  objs !! k = Some o →
  fault env (StatObject Proxy.BUCKET_NAME k) = None →
  meta o !! original_name = None →
  ∃ files st',
    Proxy.get_files env st = (Return (listing files (Z.of_nat (size objs))), st') ∧
    (∃ entry, entry ∈ files ∧ prop "name" entry = JStr k) ∧
    (∀ entry, entry ∈ files → prop "name" entry = JStr k →
              has_field "originalName" entry = true ∧
              prop "originalName" entry = JStr k).
Proof.
  intros Hb Hl Hk Hf Hmeta.
  destruct (get_files_run env st objs Hb Hl) as (st' & Hrun & _).
  eexists _, st'. split; [exact Hrun|]. split.
  - exists (listing_entry env objs (listed (k, o))). split.
    + apply list_elem_of_fmap_2, list_elem_of_fmap_2. by apply elem_of_map_to_list.
    + apply listing_entry_name.
  - intros entry Hin Hname.
    apply list_elem_of_fmap in Hin as (ob & -> & Hin).
    apply list_elem_of_fmap in Hin as ([k' o'] & -> & Hin).
    apply elem_of_map_to_list in Hin.
    rewrite listing_entry_name in Hname. cbn in Hname. injection Hname as ->.
    rewrite Hk in Hin. injection Hin as <-.
    rewrite (listing_entry_listed _ _ _ _ Hk), Hf.
    unfold Proxy.full_entry, original_name in *. cbn. by rewrite Hmeta.
Qed.

Lemma list_original_name_fallback_witness :
  let up := Proxy.post_upload quiet (Return (Some a_txt)) empty_bucket in
  ∃ files st',
    Proxy.get_files quiet up.2 = (Return (listing files 1), st') ∧
    (∀ entry, entry ∈ files → prop "name" entry = JStr "1700000000000-a.txt" →
              has_field "originalName" entry = true ∧
              prop "originalName" entry = JStr "1700000000000-a.txt").
Proof.
  intros up.
  destruct (list_original_name_fallback quiet up.2
              {[ "1700000000000-a.txt" := mkStored hi ∅ 1700000000000 ]}
              "1700000000000-a.txt" (mkStored hi ∅ 1700000000000))
    as (files & st' & Hrun & _ & Hall).
  - vm_compute. reflexivity.
  - reflexivity.
  - reflexivity.
  - reflexivity.
  - reflexivity.
  - exists files, st'. split; [exact Hrun|exact Hall].
Defined.

(** ** Pre-signed URLs *)

(** C3, as stated, fails for Download-URL: its answer holds the URL and
    nothing else, no expiry comes with it. *)
Lemma download_url_reply_has_no_expiry :
  let url := "http://localhost:9000/my-bucket/k?get&expires=300" in
  (Direct.get_download_url quiet "k" empty_bucket).1 = Return (ok (JObj [("url", JStr url)])) ∧
  has_field "expiresIn" (JObj [("url", JStr url)]) = false ∧
  field_names (JObj [("url", JStr url)]) = ["url"].
Proof. repeat split; vm_compute; reflexivity. Qed.

(** C3, amended. For every key on which the signing call of the store
    goes through, whether or not an object exists under it, Upload-URL
    answers with the signed URL, the key and an expiry equal to the
    duration it asked the store to sign for (86400 seconds in the
    streaming-proxy variant, 300 seconds in the direct-upload variant),
    and Download-URL answers with the URL signed for 300 seconds and
    nothing else; the only call issued is the signing call. *)
Theorem presigned_url_replies env st k :
  (fault env (PresignedPutObject Proxy.BUCKET_NAME k 86400) = None →
   Proxy.get_upload_url env k st =
     (Return (ok (JObj [("uploadUrl",
                         JStr (sign env (PresignedPutObject Proxy.BUCKET_NAME k 86400)));
                        ("filename", JStr k);
                        ("expiresIn", JNum 86400)])),
      record (PresignedPutObject Proxy.BUCKET_NAME k 86400) st)) ∧
  (fault env (PresignedPutObject Direct.BUCKET_NAME k 300) = None →
   Direct.get_upload_url env k st =
     (Return (ok (JObj [("uploadUrl",
                         JStr (sign env (PresignedPutObject Direct.BUCKET_NAME k 300)));
                        ("fileKey", JStr k);
                        ("expiresIn", JNum 300)])),
      record (PresignedPutObject Direct.BUCKET_NAME k 300) st)) ∧
  (fault env (PresignedGetObject Direct.BUCKET_NAME k 300) = None →
   Direct.get_download_url env k st =
     (Return (ok (JObj [("url",
                         JStr (sign env (PresignedGetObject Direct.BUCKET_NAME k 300)))])),
      record (PresignedGetObject Direct.BUCKET_NAME k 300) st)).
Proof.
  split; [|split]; intros Hf.
  - unfold Proxy.get_upload_url, try_catch, bind, presignedPutObject, bind.
    change (24 * 60 * 60) with 86400. by rewrite (call_ok _ _ _ Hf).
  - unfold Direct.get_upload_url, try_catch, bind, presignedPutObject, bind.
    change (60 * 5) with 300. by rewrite (call_ok _ _ _ Hf).
  - unfold Direct.get_download_url, try_catch, bind, presignedGetObject, bind.
    change (60 * 5) with 300. by rewrite (call_ok _ _ _ Hf).
Qed.

Lemma presigned_url_replies_witness :
  Proxy.get_upload_url quiet "new.bin" empty_bucket =
    (Return (ok (JObj [("uploadUrl",
                        JStr "http://localhost:9000/my-bucket/new.bin?put&expires=86400");
                       ("filename", JStr "new.bin");
                       ("expiresIn", JNum 86400)])),
     record (PresignedPutObject "my-bucket" "new.bin" 86400) empty_bucket) ∧
  Direct.get_upload_url quiet "new.bin" empty_bucket =
    (Return (ok (JObj [("uploadUrl",
                        JStr "http://localhost:9000/my-bucket/new.bin?put&expires=300");
                       ("fileKey", JStr "new.bin");
                       ("expiresIn", JNum 300)])),
     record (PresignedPutObject "my-bucket" "new.bin" 300) empty_bucket) ∧
  Direct.get_download_url quiet "new.bin" empty_bucket =
    (Return (ok (JObj [("url",
                        JStr "http://localhost:9000/my-bucket/new.bin?get&expires=300")])),
     record (PresignedGetObject "my-bucket" "new.bin" 300) empty_bucket).
Proof.
  destruct (presigned_url_replies quiet empty_bucket "new.bin") as (Hup & Hup' & Hdown).
  split; [|split].
  - apply Hup. reflexivity.
  - apply Hup'. reflexivity.
  - apply Hdown. reflexivity.
Defined.

(** ** Startup provisioning *)

(** The start of the streaming-proxy variant issues the listen call right
    after [ensureBucket] returns. *)
Lemma proxy_start_listens env st st1 :
  Proxy.ensureBucket env st = (Return (), st1) →
  trace (Proxy.start env st).2 = trace st1 ++ [Listen 3000 "0.0.0.0"].
Proof.
  intros H. unfold Proxy.start, try_catch, bind at 1. rewrite H.
  unfold bind at 1, listen, call.
  by destruct (fault env (Listen 3000 "0.0.0.0")).
Qed.

(** [ensureBucket] of the streaming-proxy variant never throws. *)
Lemma proxy_ensureBucket_returns env st :
  ∃ st1, Proxy.ensureBucket env st = (Return (), st1).
Proof.
  unfold Proxy.ensureBucket, try_catch.
  destruct (bind _ _ st) as [[[]|e] st1]; by eexists.
Qed.

(** C4, as stated, fails in both variants: with the existence check
    refused, the streaming-proxy variant logs the error, goes on to listen
    and does not exit, while the direct-upload variant logs nothing and
    its start throws the error before any listen. *)
Lemma provisioning_policies_are_swapped :
  let env := failing (BucketExists "my-bucket") ECONNREFUSED in
  Proxy.start env no_bucket =
    (Return (),
     mkState ∅ [BucketExists "my-bucket"; Listen 3000 "0.0.0.0"]
       [LogError "Error with bucket:" ECONNREFUSED;
        Log "Server is running on http://localhost:3000";
        Log "Available endpoints:";
        Log "  POST /upload - Upload a file";
        Log "  GET /file/:filename - Download a file";
        Log "  GET /files - List all files";
        Log "  DELETE /file/:filename - Delete a file";
        Log "  GET /upload-url/:filename - Get presigned upload URL";
        Log "  GET /health - Health check"]
       None) ∧
  Direct.start env no_bucket =
    (Throw ECONNREFUSED, mkState ∅ [BucketExists "my-bucket"] [] None).
Proof. split; vm_compute; reflexivity. Qed.

(** C4, amended. When the existence check or the creation of the bucket
    fails at startup, the streaming-proxy variant catches the error
    inside its provisioner, logs it and carries on: [ensureBucket]
    returns and [start] goes on to listen; in the direct-upload variant
    the error leaves [ensureBucket] and [start] uncaught and unlogged,
    and the listen call is never issued. *)
Theorem provisioning_failure_policy env st e :
  provisioning_fails env st e →
  (∃ st1,
     Proxy.ensureBucket env st = (Return (), st1) ∧
     console st1 = console st ++ [LogError "Error with bucket:" e] ∧
     trace (Proxy.start env st).2 = trace st1 ++ [Listen 3000 "0.0.0.0"]) ∧
  (∃ st1,
     Direct.ensureBucket env st = (Throw e, st1) ∧
     Direct.start env st = (Throw e, st1) ∧
     console st1 = console st ∧
     (trace st1 = trace st ++ [BucketExists "my-bucket"] ∨
      trace st1 = trace st ++ [BucketExists "my-bucket"; MakeBucket "my-bucket" "us-east-1"])).
Proof.
  intros [Hf|(Hf & Hb & Hm)].
  - split.
    + assert (Hrun : Proxy.ensureBucket env st =
                       (Return (), say (LogError "Error with bucket:" e)
                                     (record (BucketExists "my-bucket") st))).
      { unfold Proxy.ensureBucket, try_catch, bind at 1, bucketExists, bind at 1.
        by rewrite (call_fail _ _ _ _ Hf). }
      eexists. split; [exact Hrun|]. split; [done|].
      by rewrite (proxy_start_listens _ _ _ Hrun).
    + assert (Hrun : Direct.ensureBucket env st =
                       (Throw e, record (BucketExists "my-bucket") st)).
      { unfold Direct.ensureBucket, bind at 1, bucketExists, bind at 1.
        by rewrite (call_fail _ _ _ _ Hf). }
      eexists. split; [exact Hrun|]. split; [|split; [done|by left]].
      unfold Direct.start, bind at 1. by rewrite Hrun.
  - split.
    + assert (Hrun : Proxy.ensureBucket env st =
                       (Return (), say (LogError "Error with bucket:" e)
                                     (record (MakeBucket "my-bucket" "us-east-1")
                                        (record (BucketExists "my-bucket") st)))).
      { unfold Proxy.ensureBucket, try_catch, bind at 1, bucketExists, bind at 1.
        rewrite (call_ok _ _ _ Hf). cbn [buckets record].
        rewrite bool_decide_eq_false_2 by (change Proxy.BUCKET_NAME with "my-bucket";
                                           rewrite Hb; by intros [? [=]]).
        cbn [negb]. unfold bind at 1, makeBucket, bind at 1.
        by rewrite (call_fail _ _ _ _ Hm). }
      eexists. split; [exact Hrun|]. split; [done|].
      by rewrite (proxy_start_listens _ _ _ Hrun).
    + assert (Hrun : Direct.ensureBucket env st =
                       (Throw e, record (MakeBucket "my-bucket" "us-east-1")
                                   (record (BucketExists "my-bucket") st))).
      { unfold Direct.ensureBucket, bind at 1, bucketExists, bind at 1.
        rewrite (call_ok _ _ _ Hf). cbn [buckets record].
        rewrite bool_decide_eq_false_2 by (change Direct.BUCKET_NAME with "my-bucket";
                                           rewrite Hb; by intros [? [=]]).
        cbn [negb]. unfold bind at 1, makeBucket, bind at 1.
        by rewrite (call_fail _ _ _ _ Hm). }
      eexists. split; [exact Hrun|]. split; [|split; [done|right]].
      * unfold Direct.start, bind at 1. by rewrite Hrun.
      * cbn. by rewrite <- app_assoc.
Qed.

Lemma provisioning_failure_policy_witness :
  let env := failing (MakeBucket "my-bucket" "us-east-1") ECONNREFUSED in
  (∃ st1,
     Proxy.ensureBucket env no_bucket = (Return (), st1) ∧
     console st1 = [LogError "Error with bucket:" ECONNREFUSED] ∧
     trace (Proxy.start env no_bucket).2 = trace st1 ++ [Listen 3000 "0.0.0.0"]) ∧
  (∃ st1,
     Direct.ensureBucket env no_bucket = (Throw ECONNREFUSED, st1) ∧
     Direct.start env no_bucket = (Throw ECONNREFUSED, st1) ∧
     console st1 = [] ∧
     (trace st1 = [BucketExists "my-bucket"] ∨
      trace st1 = [BucketExists "my-bucket"; MakeBucket "my-bucket" "us-east-1"])).
Proof.
  intros env.
  apply (provisioning_failure_policy env no_bucket ECONNREFUSED).
  right. split; [reflexivity|]. split; reflexivity.
Defined.

(** ** The register of posts *)







(** * Further properties of the handlers *)

(** ** Store *)

Lemma putObject_cases env b k stream st :
  (∃ objs,
     buckets st !! b = Some objs ∧
     putObject env b k stream st =
       (Return (),
        set_buckets (<[b := <[k := mkStored stream (implicitMeta env) (storeClock env)]> objs]>
                       (buckets st))
                    (record (PutObject b k) st))) ∨
  (∃ e, putObject env b k stream st = (Throw e, record (PutObject b k) st)).
Proof.
  destruct (fault env (PutObject b k)) as [e|] eqn:Hf.
  { right. exists e. unfold putObject, bind. by rewrite (call_fail _ _ _ _ Hf). }
  destruct (buckets st !! b) as [objs|] eqn:Hb.
  - left. exists objs. split; [done|]. by apply putObject_ok.
  - right. exists NoSuchBucket. unfold putObject, bind.
    rewrite (call_ok _ _ _ Hf). cbn. by rewrite Hb.
Qed.

Lemma post_upload_put_throws env st d e st1 :
  putObject env Proxy.BUCKET_NAME (Proxy.uniqueFilename env (data.filename d))
    (data.file d) st = (Throw e, st1) →
  Proxy.post_upload env (Return (Some d)) st =
    (Return (send 500 (error_payload "Failed to upload file")),
     say (LogError "Upload error:" e) st1).
Proof.
  intros H. unfold Proxy.post_upload, try_catch, bind at 1, lift.
  unfold bind at 1. by rewrite H.
Qed.

Lemma post_upload_put_returns env st d st1 :
  putObject env Proxy.BUCKET_NAME (Proxy.uniqueFilename env (data.filename d))
    (data.file d) st = (Return (), st1) →
  ∃ r, Proxy.post_upload env (Return (Some d)) st = (Return r, st1) ∧ status r = 200.
Proof.
  intros H. unfold Proxy.post_upload, try_catch, bind at 1, lift.
  unfold bind at 1. rewrite H. by eexists.
Qed.

(** An upload that is answered 200 has stored the stream: the put went
    through on an existing bucket. *)
Lemma post_upload_200 env st d r st' :
  Proxy.post_upload env (Return (Some d)) st = (Return r, st') →
  status r = 200 →
  ∃ objs,
    buckets st !! Proxy.BUCKET_NAME = Some objs ∧
    st' = set_buckets
            (<[Proxy.BUCKET_NAME :=
                 <[Proxy.uniqueFilename env (data.filename d) :=
                     mkStored (data.file d) (implicitMeta env) (storeClock env)]> objs]>
               (buckets st))
            (record (PutObject Proxy.BUCKET_NAME
                       (Proxy.uniqueFilename env (data.filename d))) st).
Proof.
  intros Hrun H200.
  destruct (putObject_cases env Proxy.BUCKET_NAME
              (Proxy.uniqueFilename env (data.filename d)) (data.file d) st)
    as [(objs & Hb & Hput)|(e & Hput)].
  - destruct (post_upload_put_returns _ _ _ _ Hput) as (r' & Hrun' & _).
    rewrite Hrun' in Hrun. injection Hrun as _ <-. by exists objs.
  - rewrite (post_upload_put_throws _ _ _ _ _ Hput) in Hrun.
    injection Hrun as <- _. done.
Qed.

(** X1. Store always answers, with 200, 400 or 500: 400 exactly when the
    request carries no file part, and then no call is issued; and whenever
    the answer is not 200 the buckets are left as they were. *)
Theorem post_upload_replies env request_file st :
  ∃ r st',
    Proxy.post_upload env request_file st = (Return r, st') ∧
    (status r = 200 ∨ status r = 400 ∨ status r = 500) ∧
    (status r = 400 ↔ request_file = Return None) ∧
    (status r = 400 → trace st' = trace st) ∧
    (status r ≠ 200 → buckets st' = buckets st).
Proof.
  destruct request_file as [[d|]|e].
  - destruct (putObject_cases env Proxy.BUCKET_NAME
                (Proxy.uniqueFilename env (data.filename d)) (data.file d) st)
      as [(objs & Hb & Hput)|(e & Hput)].
    + destruct (post_upload_put_returns _ _ _ _ Hput) as (r & Hrun & H200).
      eexists r, _. split; [exact Hrun|]. rewrite H200.
      split; [by left|]. split; [done|]. split; done.
    + eexists _, _. split; [exact (post_upload_put_throws _ _ _ _ _ Hput)|].
      cbn. split; [by right; right|]. split; [done|]. split; done.
  - eexists _, _. split; [reflexivity|]. cbn.
    split; [by right; left|]. split; [done|]. split; done.
  - eexists _, _. split; [reflexivity|]. cbn.
    split; [by right; right|]. split; [done|]. split; done.
Qed.

Lemma object_at_insert st b k o objs b' k' :
  buckets st !! b = Some objs →
  object_at (set_buckets (<[b := <[k := o]> objs]> (buckets st)) (record (PutObject b k) st))
            b' k' =
    if decide (b' = b ∧ k' = k) then Some o else object_at st b' k'.
Proof.
  intros Hb. unfold object_at. cbn.
  destruct (decide (b' = b)) as [->|Hne].
  - rewrite lookup_insert_eq, Hb. cbn.
    destruct (decide (k' = k)) as [->|Hk].
    + rewrite lookup_insert_eq. by rewrite decide_True.
    + rewrite lookup_insert_ne by done. rewrite decide_False; [done|]. by intros [_ ?].
  - rewrite lookup_insert_ne by done. rewrite decide_False; [done|]. by intros [? _].
Qed.

(** X2. A successful upload issues one put and stores the stream under
    its key, stamped by the clock of the store (the clock of the handler
    goes into the key and nowhere else); it leaves every other object of
    every bucket as it was. *)
Theorem post_upload_frame env st d r st' :
  Proxy.post_upload env (Return (Some d)) st = (Return r, st') →
  status r = 200 →
  object_at st' Proxy.BUCKET_NAME (Proxy.uniqueFilename env (data.filename d)) =
    Some (mkStored (data.file d) (implicitMeta env) (storeClock env)) ∧
  (∀ b k, ¬ (b = Proxy.BUCKET_NAME ∧ k = Proxy.uniqueFilename env (data.filename d)) →
          object_at st' b k = object_at st b k) ∧
  trace st' =
    trace st ++ [PutObject Proxy.BUCKET_NAME (Proxy.uniqueFilename env (data.filename d))].
Proof.
  intros Hrun H200.
  destruct (post_upload_200 _ _ _ _ _ Hrun H200) as (objs & Hb & ->).
  split; [|split].
  - rewrite (object_at_insert _ _ _ _ _ _ _ Hb). by rewrite decide_True.
  - intros b k Hne. rewrite (object_at_insert _ _ _ _ _ _ _ Hb).
    by rewrite decide_False.
  - done.
Qed.

Lemma post_upload_frame_witness :
  let env := mkEnv (λ _, None) 1793694647062 sample_sign ∅ 1793694647000 0 in
  let old := mkStored [] ∅ 5 in
  let st := mkState {[ "my-bucket" := {[ "old" := old ]} ]} [] [] None in
  let st' := (Proxy.post_upload env (Return (Some a_txt)) st).2 in
  object_at st' "my-bucket" "1793694647062-a.txt" = Some (mkStored hi ∅ 1793694647000) ∧
  object_at st' "my-bucket" "old" = Some old.
Proof.
  intros env old st st'.
  destruct (post_upload_frame env st a_txt
              (ok (JObj [("success", JBool true);
                         ("message", JStr "File uploaded successfully");
                         ("filename", JStr "1793694647062-a.txt");
                         ("originalName", JStr "a.txt");
                         ("mimetype", JStr "text/plain")]))
              st') as (Hnew & Hold & _).
  - vm_compute. reflexivity.
  - reflexivity.
  - split; [exact Hnew|]. rewrite (Hold "my-bucket" "old").
    + vm_compute. reflexivity.
    + intros [_ H]. discriminate H.
Defined.

(** X3. Two uploads of the same filename at the same instant get the same
    key: the second overwrites the first, and the buckets end up as if
    only the second had been stored. *)
Theorem same_instant_same_name_overwrites env st d1 d2 objs :
  buckets st !! Proxy.BUCKET_NAME = Some objs →
  fault env (PutObject Proxy.BUCKET_NAME (Proxy.uniqueFilename env (data.filename d1))) = None →
  data.filename d1 = data.filename d2 →
  buckets (Proxy.post_upload env (Return (Some d2))
             (Proxy.post_upload env (Return (Some d1)) st).2).2 =
    buckets (Proxy.post_upload env (Return (Some d2)) st).2 ∧
  object_at (Proxy.post_upload env (Return (Some d2))
               (Proxy.post_upload env (Return (Some d1)) st).2).2
            Proxy.BUCKET_NAME (Proxy.uniqueFilename env (data.filename d1)) =
    Some (mkStored (data.file d2) (implicitMeta env) (storeClock env)).
Proof.
  intros Hb Hf Heq.
  rewrite (post_upload_ok _ _ _ objs Hb Hf). cbn [snd].
  assert (Hf2 : fault env (PutObject Proxy.BUCKET_NAME
                             (Proxy.uniqueFilename env (data.filename d2))) = None)
    by (by rewrite <- Heq).
  rewrite (post_upload_ok _ _ _ objs Hb Hf2). cbn [snd].
  erewrite post_upload_ok; [|cbn; apply lookup_insert_eq|exact Hf2].
  cbn [snd]. rewrite <- Heq. split.
  - cbn. by rewrite !insert_insert_eq.
  - unfold object_at. cbn. rewrite lookup_insert_eq. cbn. apply lookup_insert_eq.
Qed.

Lemma same_instant_same_name_overwrites_witness :
  let other := data.mk "a.txt" "text/html" [x3c] in
  object_at (Proxy.post_upload quiet (Return (Some other))
               (Proxy.post_upload quiet (Return (Some a_txt)) empty_bucket).2).2
            "my-bucket" "1700000000000-a.txt" =
    Some (mkStored [x3c] ∅ 1700000000000).
Proof.
  intros other.
  apply (same_instant_same_name_overwrites quiet empty_bucket a_txt other ∅);
    reflexivity.
Defined.

(** ** Keys *)

Lemma pretty_N_char_is_digit x : is_digit (pretty_N_char x) = true.
Proof. unfold pretty_N_char. by repeat case_match. Qed.

Lemma pretty_N_go_all_digits x : ∀ s,
  all_digits s = true → all_digits (pretty_N_go x s) = true.
Proof.
  induction (N.lt_wf_0 x) as [x _ IH]. intros s Hs.
  destruct (decide (x = 0%N)) as [->|Hx]; [by rewrite pretty_N_go_0|].
  rewrite pretty_N_go_step by lia. apply IH.
  - apply N.div_lt; lia.
  - cbn [all_digits]. by rewrite pretty_N_char_is_digit, Hs.
Qed.

Lemma pretty_nonneg_all_digits (z : Z) : (0 ≤ z)%Z → all_digits (pretty z) = true.
Proof.
  intros Hz. destruct z as [|p|p]; [done| |lia].
  unfold pretty, pretty_Z, pretty, pretty_positive, pretty, pretty_N.
  rewrite decide_False by done. by apply pretty_N_go_all_digits.
Qed.

(** The first "-" after a run of digits ends the run. *)
Lemma digits_dash_split s1 : ∀ s2 f1 f2,
  all_digits s1 = true → all_digits s2 = true →
  s1 +:+ "-" +:+ f1 = s2 +:+ "-" +:+ f2 → s1 = s2 ∧ f1 = f2.
Proof.
  induction s1 as [|a s1 IH]; intros [|b s2] f1 f2 H1 H2 Heq; simpl in Heq.
  - injection Heq as Heq. by subst.
  - injection Heq as Hb _. subst b. cbn in H2. discriminate H2.
  - injection Heq as Ha _. subst a. cbn in H1. discriminate H1.
  - injection Heq as Hab Heq. subst b. cbn [all_digits] in H1, H2.
    apply andb_true_iff in H1 as [_ H1]. apply andb_true_iff in H2 as [_ H2].
    destruct (IH s2 f1 f2 H1 H2 Heq) as [-> ->]. done.
Qed.

(** X4. The key tells the upload: with clocks that do not run before the
    epoch, two uploads get the same key only if they happen at the same
    instant with the same filename, whatever characters the filenames
    hold. *)
Theorem uniqueFilename_decodes env1 env2 f1 f2 :
  (0 ≤ now env1)%Z → (0 ≤ now env2)%Z →
  Proxy.uniqueFilename env1 f1 = Proxy.uniqueFilename env2 f2 →
  now env1 = now env2 ∧ f1 = f2.
Proof.
  intros H1 H2 Heq. unfold Proxy.uniqueFilename in Heq.
  apply digits_dash_split in Heq as [Hstamp ->];
    [|by apply pretty_nonneg_all_digits..].
  split; [|done]. by apply (inj pretty).
Qed.

Lemma uniqueFilename_decodes_witness :
  Proxy.uniqueFilename quiet "1-a.txt" ≠
  Proxy.uniqueFilename (mkEnv (λ _, None) 17000000000001 sample_sign ∅ 17000000000000 0) "a.txt".
Proof.
  intros Heq.
  destruct (uniqueFilename_decodes quiet
              (mkEnv (λ _, None) 17000000000001 sample_sign ∅ 17000000000000 0) "1-a.txt" "a.txt")
    as [_ Hf].
  - vm_compute. discriminate.
  - vm_compute. discriminate.
  - exact Heq.
  - discriminate Hf.
Defined.

(** ** Delete *)

Lemma statObject_cases env b k st :
  (∃ o, object_at st b k = Some o ∧
        statObject env b k st = (Return (stat_of o), record (StatObject b k) st)) ∨
  (∃ e, statObject env b k st = (Throw e, record (StatObject b k) st)).
Proof.
  destruct (fault env (StatObject b k)) as [e|] eqn:Hf.
  { right. exists e. by apply statObject_fail. }
  unfold object_at.
  destruct (buckets st !! b) as [objs|] eqn:Hb.
  - destruct (objs !! k) as [o|] eqn:Hk.
    + left. exists o. split; [done|]. by apply statObject_ok with objs.
    + right. exists NotFound. by apply statObject_missing with objs.
  - right. exists NotFound. unfold statObject, bind.
    rewrite (call_ok _ _ _ Hf). unfold head_object. cbn. by rewrite Hb.
Qed.


Lemma removeObject_cases env b k st :
  (∃ objs,
     buckets st !! b = Some objs ∧
     removeObject env b k st =
       (Return (),
        set_buckets (<[b := delete k objs]> (buckets st)) (record (RemoveObject b k) st))) ∨
  (∃ e, removeObject env b k st = (Throw e, record (RemoveObject b k) st)).
Proof.
  unfold removeObject, bind.
  destruct (fault env (RemoveObject b k)) as [e|] eqn:Hf.
  { right. exists e. by rewrite (call_fail _ _ _ _ Hf). }
  rewrite (call_ok _ _ _ Hf). cbn.
  destruct (buckets st !! b) as [objs|] eqn:Hb.
  - left. by exists objs.
  - right. by exists NoSuchBucket.
Qed.

Lemma delete_failure_status e : status (delete_failure e) = 404 ∨ status (delete_failure e) = 500.
Proof. unfold delete_failure. destruct (code_is e "NoSuchKey"); [by left|by right]. Qed.

Lemma delete_file_remove_throws env st k s st1 e st2 :
  statObject env Proxy.BUCKET_NAME k st = (Return s, st1) →
  removeObject env Proxy.BUCKET_NAME k st1 = (Throw e, st2) →
  Proxy.delete_file env k st = (Return (delete_failure e), say (LogError "Delete error:" e) st2).
Proof.
  intros H1 H2. unfold Proxy.delete_file, try_catch, bind. rewrite H1, H2.
  unfold delete_failure, console_error, ret. by destruct (code_is e "NoSuchKey").
Qed.

Lemma delete_file_removed env st k s st1 st2 :
  statObject env Proxy.BUCKET_NAME k st = (Return s, st1) →
  removeObject env Proxy.BUCKET_NAME k st1 = (Return (), st2) →
  Proxy.delete_file env k st =
    (Return (ok (JObj [("success", JBool true);
                       ("message", JStr ("File '" +:+ k +:+ "' deleted successfully"))])),
     st2).
Proof.
  intros H1 H2. unfold Proxy.delete_file, try_catch, bind. by rewrite H1, H2.
Qed.

Lemma object_at_delete st st' b k objs b' k' :
  buckets st !! b = Some objs →
  buckets st' = <[b := delete k objs]> (buckets st) →
  object_at st' b' k' =
    if decide (b' = b ∧ k' = k) then None else object_at st b' k'.
Proof.
  intros Hb Hst'. unfold object_at. rewrite Hst'.
  destruct (decide (b' = b)) as [->|Hne].
  - rewrite lookup_insert_eq, Hb. cbn.
    destruct (decide (k' = k)) as [->|Hk].
    + rewrite lookup_delete_eq. by rewrite decide_True.
    + rewrite lookup_delete_ne by done. rewrite decide_False; [done|]. by intros [_ ?].
  - rewrite lookup_insert_ne by done. rewrite decide_False; [done|]. by intros [? _].
Qed.

(** X5. Delete always answers, with 200, 404 or 500.  When it answers
    200 the object existed, it is gone afterwards and every other object
    is as it was; with any other answer the buckets are left as they
    were. *)
Theorem delete_file_effect env k st :
  ∃ r st',
    Proxy.delete_file env k st = (Return r, st') ∧
    (status r = 200 ∨ status r = 404 ∨ status r = 500) ∧
    (status r = 200 →
     is_Some (object_at st Proxy.BUCKET_NAME k) ∧
     object_at st' Proxy.BUCKET_NAME k = None ∧
     ∀ b' k', ¬ (b' = Proxy.BUCKET_NAME ∧ k' = k) →
              object_at st' b' k' = object_at st b' k') ∧
    (status r ≠ 200 → buckets st' = buckets st).
Proof.
  destruct (statObject_cases env Proxy.BUCKET_NAME k st) as [(o & Ho & Hs)|(e & Hs)].
  - destruct (removeObject_cases env Proxy.BUCKET_NAME k
                (record (StatObject Proxy.BUCKET_NAME k) st))
      as [(objs & Hb & Hr)|(e & Hr)].
    + set (st2 := set_buckets _ _) in Hr.
      assert (Hat : ∀ b' k',
                object_at st2 b' k' =
                  if decide (b' = Proxy.BUCKET_NAME ∧ k' = k) then None
                  else object_at st b' k')
        by (intros; by apply (object_at_delete st st2 _ k objs)).
      eexists _, st2. split; [exact (delete_file_removed _ _ _ _ _ _ Hs Hr)|].
      split; [by left|]. split; [|done]. intros _. split; [by rewrite Ho|].
      split.
      * rewrite Hat. by rewrite decide_True.
      * intros b' k' Hne. rewrite Hat. by rewrite decide_False.
    + eexists _, _. split; [exact (delete_file_remove_throws _ _ _ _ _ _ _ Hs Hr)|].
      split; [|split].
      * right. apply delete_failure_status.
      * intros H. destruct (delete_failure_status e) as [H'|H']; congruence.
      * done.
  - eexists _, _. split; [exact (delete_file_stat_throws _ _ _ _ _ Hs)|].
    split; [|split].
    + right. apply delete_failure_status.
    + intros H. destruct (delete_failure_status e) as [H'|H']; congruence.
    + done.
Qed.

Lemma delete_file_ok env st k objs o :
  buckets st !! Proxy.BUCKET_NAME = Some objs → objs !! k = Some o →
  fault env (StatObject Proxy.BUCKET_NAME k) = None →
  fault env (RemoveObject Proxy.BUCKET_NAME k) = None →
  Proxy.delete_file env k st =
    (Return (ok (JObj [("success", JBool true);
                       ("message", JStr ("File '" +:+ k +:+ "' deleted successfully"))])),
     set_buckets (<[Proxy.BUCKET_NAME := delete k objs]> (buckets st))
       (record (RemoveObject Proxy.BUCKET_NAME k)
          (record (StatObject Proxy.BUCKET_NAME k) st))).
Proof.
  intros Hb Hk Hs Hr.
  eapply delete_file_removed; [by eapply statObject_ok|].
  unfold removeObject, bind. rewrite (call_ok _ _ _ Hr). cbn. by rewrite Hb.
Qed.

(** X6. Deleting a stored object, the store answering, issues the stat
    and then the remove and answers 200 with the key in its message.
    From then on Retrieve of that key answers 404, while a second Delete
    answers 500 "Failed to delete file": its stat is rejected with the
    code NotFound, which the handler does not take for a missing file;
    no second remove is issued. *)
Theorem delete_then_gone env st k objs o :
  buckets st !! Proxy.BUCKET_NAME = Some objs → objs !! k = Some o →
  fault env (StatObject Proxy.BUCKET_NAME k) = None →
  fault env (RemoveObject Proxy.BUCKET_NAME k) = None →
  fault env (GetObject Proxy.BUCKET_NAME k) = None →
  ∃ st',
    Proxy.delete_file env k st =
      (Return (ok (JObj [("success", JBool true);
                         ("message", JStr ("File '" +:+ k +:+ "' deleted successfully"))])),
       st') ∧
    trace st' = trace st ++ [StatObject Proxy.BUCKET_NAME k; RemoveObject Proxy.BUCKET_NAME k] ∧
    buckets st' = <[Proxy.BUCKET_NAME := delete k objs]> (buckets st) ∧
    (Proxy.get_file env k st').1 = Return (send 404 (error_payload "File not found")) ∧
    (Proxy.delete_file env k st').1 =
      Return (send 500 (error_payload "Failed to delete file")) ∧
    trace (Proxy.delete_file env k st').2 = trace st' ++ [StatObject Proxy.BUCKET_NAME k].
Proof.
  intros Hb Hk Hs Hr Hg. eexists. split; [by apply (delete_file_ok _ _ _ objs o)|].
  split; [cbn; by rewrite <- app_assoc|]. split; [done|].
  set (st' := set_buckets _ _).
  assert (Hb' : buckets st' !! Proxy.BUCKET_NAME = Some (delete k objs))
    by (cbn; apply lookup_insert_eq).
  assert (Hk' : delete k objs !! k = None) by apply lookup_delete_eq.
  split; [|split].
  - by rewrite (get_file_get_throws _ _ _ _ _ (getObject_missing _ _ _ _ _ Hb' Hk' Hg)).
  - by rewrite (delete_file_stat_throws _ _ _ _ _ (statObject_missing _ _ _ _ _ Hb' Hk' Hs)).
  - by rewrite (delete_file_stat_throws _ _ _ _ _ (statObject_missing _ _ _ _ _ Hb' Hk' Hs)).
Qed.

Lemma delete_then_gone_witness :
  let st := (Proxy.post_upload quiet (Return (Some a_txt)) empty_bucket).2 in
  ∃ st',
    Proxy.delete_file quiet "1700000000000-a.txt" st =
      (Return (ok (JObj [("success", JBool true);
                         ("message", JStr "File '1700000000000-a.txt' deleted successfully")])),
       st') ∧
    (Proxy.get_file quiet "1700000000000-a.txt" st').1 =
      Return (send 404 (error_payload "File not found")) ∧
    (Proxy.delete_file quiet "1700000000000-a.txt" st').1 =
      Return (send 500 (error_payload "Failed to delete file")).
Proof.
  intros st.
  destruct (delete_then_gone quiet st "1700000000000-a.txt"
              {[ "1700000000000-a.txt" := mkStored hi ∅ 1700000000000 ]}
              (mkStored hi ∅ 1700000000000))
    as (st' & Hrun & _ & _ & Hget & Hdel & _).
  - vm_compute. reflexivity.
  - reflexivity.
  - reflexivity.
  - reflexivity.
  - reflexivity.
  - exists st'. split; [exact Hrun|]. split; [exact Hget|exact Hdel].
Defined.

(** X7. Storing under a fresh key and deleting that key again, the
    store answering, are both answered 200 and bring the buckets back to
    what they were. *)
Theorem upload_then_delete_restores env st d objs :
  buckets st !! Proxy.BUCKET_NAME = Some objs →
  objs !! Proxy.uniqueFilename env (data.filename d) = None →
  fault env (PutObject Proxy.BUCKET_NAME (Proxy.uniqueFilename env (data.filename d))) = None →
  fault env (StatObject Proxy.BUCKET_NAME (Proxy.uniqueFilename env (data.filename d))) = None →
  fault env (RemoveObject Proxy.BUCKET_NAME (Proxy.uniqueFilename env (data.filename d))) = None →
  ∃ r1 st1 r2 st2,
    Proxy.post_upload env (Return (Some d)) st = (Return r1, st1) ∧
    status r1 = 200 ∧
    is_Some (object_at st1 Proxy.BUCKET_NAME (Proxy.uniqueFilename env (data.filename d))) ∧
    Proxy.delete_file env (Proxy.uniqueFilename env (data.filename d)) st1 = (Return r2, st2) ∧
    status r2 = 200 ∧
    buckets st2 = buckets st.
Proof.
  intros Hb Hfresh Hp Hs Hr. eexists _, _, _, _.
  split; [by apply (post_upload_ok _ _ _ objs)|]. split; [done|].
  split; [unfold object_at; cbn; rewrite lookup_insert_eq; cbn;
          by rewrite lookup_insert_eq|].
  split; [apply delete_file_ok with
            (objs := <[Proxy.uniqueFilename env (data.filename d) :=
                         mkStored (data.file d) (implicitMeta env) (storeClock env)]> objs)
            (o := mkStored (data.file d) (implicitMeta env) (storeClock env));
          [cbn; apply lookup_insert_eq|apply lookup_insert_eq|done|done]|].
  split; [done|]. cbn.
  rewrite insert_insert_eq, delete_insert_eq, (delete_id _ _ Hfresh).
  by apply insert_id.
Qed.

Lemma upload_then_delete_restores_witness :
  ∃ st1 st2,
    (Proxy.post_upload quiet (Return (Some a_txt)) empty_bucket).2 = st1 ∧
    (Proxy.delete_file quiet "1700000000000-a.txt" st1).2 = st2 ∧
    buckets st2 = buckets empty_bucket.
Proof.
  destruct (upload_then_delete_restores quiet empty_bucket a_txt ∅
              eq_refl eq_refl eq_refl eq_refl eq_refl)
    as (r1 & st1 & r2 & st2 & H1 & _ & _ & H2 & _ & Hb).
  exists st1, st2. split; [by rewrite H1|]. split; [|exact Hb].
  change "1700000000000-a.txt" with (Proxy.uniqueFilename quiet (data.filename a_txt)).
  by rewrite H2.
Defined.

(** ** Retrieve *)




(** ** List *)

Lemma for_await_state env stream failure : ∀ acc st,
  ∃ l st',
    Proxy.for_await env stream failure acc st =
      (match failure with
       | Some e => Throw e
       | None => Return (acc ++ l)
       end, st') ∧
    length l = length stream ∧
    buckets st' = buckets st ∧
    console st' = console st ∧
    trace st' = trace st ++ ((λ ob, StatObject Proxy.BUCKET_NAME (obj.name ob)) <$> stream).
Proof.
  induction stream as [|ob rest IH]; intros acc st.
  - exists [], st. cbn. rewrite !app_nil_r. by destruct failure.
  - cbn [Proxy.for_await]. unfold bind at 1, try_catch, bind at 1.
    destruct (statObject_cases env Proxy.BUCKET_NAME (obj.name ob) st)
      as [(o & _ & Hs)|(e & Hs)]; rewrite Hs; cbn [ret];
      match goal with
      | |- context [Proxy.for_await env rest failure ?acc' ?st1] =>
          destruct (IH acc' st1) as (l & st' & Hrun & Hlen & Hb & Hc & Ht)
      end;
      rewrite Hrun;
      (eexists (_ :: l), st'; split; [destruct failure; [reflexivity|];
                                      by rewrite <- app_assoc|];
       split; [cbn; by rewrite Hlen|]; split; [done|]; split; [done|];
       rewrite Ht; cbn; by rewrite <- app_assoc).
Qed.

Lemma listed_names (l : list (string * Stored)) :
  (λ ob, StatObject Proxy.BUCKET_NAME (obj.name ob)) <$> (listed <$> l) =
  StatObject Proxy.BUCKET_NAME <$> l.*1.
Proof. rewrite <- !list_fmap_compose. by apply list_fmap_ext. Qed.

(** X9. List always answers, with 200 or 500, and never changes the
    buckets; it answers 500 exactly when the listing fails (refused by
    the store, or no bucket to list).  A listing that fails after having
    yielded some objects has had one stat issued for each of them, and
    the summaries collected so far are dropped: the answer is the error
    payload alone. *)
Theorem get_files_outcome env st :
  ∃ r st',
    Proxy.get_files env st = (Return r, st') ∧
    buckets st' = buckets st ∧
    (status r = 200 ∨ status r = 500) ∧
    (status r = 500 ↔
     is_Some (fault env (ListObjects Proxy.BUCKET_NAME "" true)) ∨
     buckets st !! Proxy.BUCKET_NAME = None) ∧
    (status r = 500 →
     body r = BJson (JObj [("error", JStr "Failed to list files")]) ∧
     trace st' =
       trace st ++ ListObjects Proxy.BUCKET_NAME "" true ::
         (StatObject Proxy.BUCKET_NAME <$>
          match fault env (ListObjects Proxy.BUCKET_NAME "" true),
                buckets st !! Proxy.BUCKET_NAME with
          | Some _, Some objs => take (yielded env) (map_to_list objs).*1
          | _, _ => []
          end)).
Proof.
  unfold Proxy.get_files, try_catch, bind at 1, listObjects.
  destruct (fault env (ListObjects Proxy.BUCKET_NAME "" true)) as [e|] eqn:Hf.
  - unfold bind at 1. cbn [fst snd].
    match goal with
    | |- context [Proxy.for_await env ?items (Some e) [] ?st1] =>
        destruct (for_await_state env items (Some e) [] st1)
          as (l & st' & Hrun & _ & Hb & _ & Ht)
    end.
    rewrite Hrun. eexists _, _. split; [reflexivity|]. cbn.
    split; [done|]. split; [by right|]. split; [split; [intros _; left; by eexists|done]|].
    intros _. split; [done|]. rewrite Ht. cbn. rewrite <- app_assoc. cbn. do 2 f_equal.
    destruct (buckets st !! Proxy.BUCKET_NAME) as [objs|]; [|by rewrite take_nil].
    rewrite filter_all by (intros; apply prefix_empty).
    rewrite <- !fmap_take. apply (listed_names (take (yielded env) (map_to_list objs))).
  - destruct (buckets st !! Proxy.BUCKET_NAME) as [objs|] eqn:Hb.
    + unfold bind. cbn [fst snd].
      match goal with
      | |- context [Proxy.for_await env ?items None [] ?st1] =>
          destruct (for_await_state env items None [] st1)
            as (l & st' & Hrun & _ & Hb' & _ & _)
      end.
      rewrite Hrun. eexists _, st'. split; [reflexivity|]. cbn.
      split; [done|]. split; [by left|]. split; [|done].
      split; [done|]. intros [[? [=]]|[=]].
    + eexists _, _. split; [reflexivity|]. cbn.
      split; [done|]. split; [by right|]. split; [split; [intros _; by right|done]|].
      intros _. by split.
Qed.


Lemma listing_entry_size env objs ob :
  prop "size" (listing_entry env objs ob) = JNum (obj.size ob) ∧
  prop "lastModified" (listing_entry env objs ob) = JDate (obj.lastModified ob).
Proof.
  unfold listing_entry. destruct (fault env _); [done|].
  by destruct (objs !! obj.name ob).
Qed.



(** X11. An object that Store has just written is listed: List then
    holds a summary under the key of the upload, with the length of the
    uploaded stream as its size and, as its modification time, the stamp
    of the store (not the instant that the handler put into the key). *)
Theorem upload_is_listed env st d objs :
  buckets st !! Proxy.BUCKET_NAME = Some objs →
  fault env (PutObject Proxy.BUCKET_NAME (Proxy.uniqueFilename env (data.filename d))) = None →
  fault env (ListObjects Proxy.BUCKET_NAME "" true) = None →
  ∃ files count st',
    Proxy.get_files env (Proxy.post_upload env (Return (Some d)) st).2 =
      (Return (listing files count), st') ∧
    ∃ entry,
      entry ∈ files ∧
      prop "name" entry = JStr (pretty (now env) +:+ "-" +:+ data.filename d) ∧
      prop "size" entry = JNum (Z.of_nat (length (data.file d))) ∧
      prop "lastModified" entry = JDate (storeClock env).
Proof.
  intros Hb Hp Hl. rewrite (post_upload_ok _ _ _ objs Hb Hp). cbn [snd].
  set (key := Proxy.uniqueFilename env (data.filename d)).
  set (o := mkStored (data.file d) (implicitMeta env) (storeClock env)).
  destruct (get_files_run env
              (set_buckets (<[Proxy.BUCKET_NAME := <[key := o]> objs]> (buckets st))
                 (record (PutObject Proxy.BUCKET_NAME key) st))
              (<[key := o]> objs))
    as (st' & Hrun & _); [cbn; apply lookup_insert_eq|done|].
  eexists _, _, st'. split; [exact Hrun|].
  exists (listing_entry env (<[key := o]> objs) (listed (key, o))). split.
  - apply list_elem_of_fmap_2, list_elem_of_fmap_2, elem_of_map_to_list.
    apply lookup_insert_eq.
  - split; [apply listing_entry_name|].
    apply (listing_entry_size env (<[key := o]> objs) (listed (key, o))).
Qed.

Lemma upload_is_listed_witness :
  let env := mkEnv (λ _, None) 1793694647062 sample_sign ∅ 1793694647000 0 in
  ∃ files count st',
    Proxy.get_files env (Proxy.post_upload env (Return (Some a_txt)) empty_bucket).2 =
      (Return (listing files count), st') ∧
    ∃ entry,
      entry ∈ files ∧
      prop "name" entry = JStr "1793694647062-a.txt" ∧
      prop "size" entry = JNum 2 ∧
      prop "lastModified" entry = JDate 1793694647000.
Proof.
  intros env. apply (upload_is_listed env empty_bucket a_txt ∅); reflexivity.
Defined.

(** ** Provisioning and startup *)

Lemma proxy_ensureBucket_present env st objs :
  buckets st !! "my-bucket" = Some objs →
  fault env (BucketExists "my-bucket") = None →
  Proxy.ensureBucket env st =
    (Return (), say (Log "Bucket 'my-bucket' already exists")
                    (record (BucketExists "my-bucket") st)).
Proof.
  intros Hb Hf. unfold Proxy.ensureBucket, try_catch, bind at 1, bucketExists, bind at 1.
  change Proxy.BUCKET_NAME with "my-bucket". rewrite (call_ok _ _ _ Hf).
  cbn [buckets record]. rewrite Hb. by rewrite bool_decide_eq_true_2 by by eexists.
Qed.

Lemma proxy_ensureBucket_absent env st :
  buckets st !! "my-bucket" = None →
  fault env (BucketExists "my-bucket") = None →
  fault env (MakeBucket "my-bucket" "us-east-1") = None →
  Proxy.ensureBucket env st =
    (Return (), say (Log "Bucket 'my-bucket' created successfully")
                    (set_buckets (<["my-bucket" := ∅]> (buckets st))
                       (record (MakeBucket "my-bucket" "us-east-1")
                          (record (BucketExists "my-bucket") st)))).
Proof.
  intros Hb Hf Hm. unfold Proxy.ensureBucket, try_catch, bind at 1, bucketExists, bind at 1.
  change Proxy.BUCKET_NAME with "my-bucket". rewrite (call_ok _ _ _ Hf).
  cbn [buckets record]. rewrite Hb.
  rewrite bool_decide_eq_false_2 by by intros [? [=]].
  cbn [negb]. unfold bind at 1, makeBucket, bind at 1. rewrite (call_ok _ _ _ Hm).
  cbn. by rewrite Hb.
Qed.

Lemma direct_ensureBucket_present env st objs :
  buckets st !! "my-bucket" = Some objs →
  fault env (BucketExists "my-bucket") = None →
  Direct.ensureBucket env st = (Return (), record (BucketExists "my-bucket") st).
Proof.
  intros Hb Hf. unfold Direct.ensureBucket, bind at 1, bucketExists, bind at 1.
  change Direct.BUCKET_NAME with "my-bucket". rewrite (call_ok _ _ _ Hf).
  cbn [buckets record]. rewrite Hb. by rewrite bool_decide_eq_true_2 by by eexists.
Qed.

Lemma direct_ensureBucket_absent env st :
  buckets st !! "my-bucket" = None →
  fault env (BucketExists "my-bucket") = None →
  fault env (MakeBucket "my-bucket" "us-east-1") = None →
  Direct.ensureBucket env st =
    (Return (), say (Log "Bucket 'my-bucket' created")
                    (set_buckets (<["my-bucket" := ∅]> (buckets st))
                       (record (MakeBucket "my-bucket" "us-east-1")
                          (record (BucketExists "my-bucket") st)))).
Proof.
  intros Hb Hf Hm. unfold Direct.ensureBucket, bind at 1, bucketExists, bind at 1.
  change Direct.BUCKET_NAME with "my-bucket". rewrite (call_ok _ _ _ Hf).
  cbn [buckets record]. rewrite Hb.
  rewrite bool_decide_eq_false_2 by by intros [? [=]].
  cbn [negb]. unfold bind at 1, makeBucket, bind at 1. rewrite (call_ok _ _ _ Hm).
  cbn. by rewrite Hb.
Qed.

(** X12. With the store answering, the provisioner of either variant
    leaves a bucket that exists: it creates the bucket, empty, exactly
    when it was absent, and otherwise keeps its objects; other buckets
    are not touched; and a second run issues the existence check alone
    and changes nothing. *)
Theorem ensureBucket_provisions env st :
  fault env (BucketExists "my-bucket") = None →
  fault env (MakeBucket "my-bucket" "us-east-1") = None →
  ∃ st1 st2,
    Proxy.ensureBucket env st = (Return (), st1) ∧
    Direct.ensureBucket env st = (Return (), st2) ∧
    buckets st2 = buckets st1 ∧
    trace st2 = trace st1 ∧
    buckets st1 !! "my-bucket" = Some (default ∅ (buckets st !! "my-bucket")) ∧
    (∀ b, b ≠ "my-bucket" → buckets st1 !! b = buckets st !! b) ∧
    trace st1 =
      trace st ++
      match buckets st !! "my-bucket" with
      | Some _ => [BucketExists "my-bucket"]
      | None => [BucketExists "my-bucket"; MakeBucket "my-bucket" "us-east-1"]
      end ∧
    buckets (Proxy.ensureBucket env st1).2 = buckets st1 ∧
    trace (Proxy.ensureBucket env st1).2 = trace st1 ++ [BucketExists "my-bucket"].
Proof.
  intros Hf Hm. destruct (buckets st !! "my-bucket") as [objs|] eqn:Hb.
  - eexists _, _.
    split; [exact (proxy_ensureBucket_present _ _ _ Hb Hf)|].
    split; [exact (direct_ensureBucket_present _ _ _ Hb Hf)|].
    split; [done|]. split; [done|]. split; [done|]. split; [done|]. split; [done|].
    erewrite proxy_ensureBucket_present; [done|exact Hb|exact Hf].
  - eexists _, _.
    split; [exact (proxy_ensureBucket_absent _ _ Hb Hf Hm)|].
    split; [exact (direct_ensureBucket_absent _ _ Hb Hf Hm)|].
    split; [done|]. split; [done|].
    split; [cbn; apply lookup_insert_eq|].
    split; [intros b Hne; cbn; by rewrite lookup_insert_ne|].
    split; [cbn; by rewrite <- app_assoc|].
    erewrite proxy_ensureBucket_present; [done|cbn; apply lookup_insert_eq|exact Hf].
Qed.

Lemma ensureBucket_provisions_witness :
  ∃ st1,
    Proxy.ensureBucket quiet no_bucket = (Return (), st1) ∧
    buckets st1 !! "my-bucket" = Some ∅ ∧
    trace st1 = [BucketExists "my-bucket"; MakeBucket "my-bucket" "us-east-1"].
Proof.
  destruct (ensureBucket_provisions quiet no_bucket eq_refl eq_refl)
    as (st1 & st2 & H1 & _ & _ & _ & Hb & _ & Ht & _).
  exists st1. split; [exact H1|]. split; [exact Hb|exact Ht].
Defined.

Lemma proxy_ensureBucket_quiet env st :
  ∃ st1, Proxy.ensureBucket env st = (Return (), st1) ∧ exited st1 = exited st.
Proof.
  unfold Proxy.ensureBucket, try_catch, bind, bucketExists, makeBucket, bind, call,
    console_log, console_error.
  destruct (fault env (BucketExists _)); cbn; [by eexists|].
  destruct (bool_decide _); cbn; [by eexists|].
  destruct (fault env (MakeBucket _ _)); cbn; [by eexists|].
  destruct (buckets st !! _); cbn; by eexists.
Qed.

(** X13. The start of the streaming-proxy variant never throws.  It
    exits, with code 1, exactly when the listen call fails, and then the
    last thing it logged is that error; no failure of the provisioning
    makes it exit. *)
Theorem proxy_start_exit env st :
  exited st = None →
  ∃ st',
    Proxy.start env st = (Return (), st') ∧
    (exited st' = Some 1 ↔ is_Some (fault env (Listen 3000 "0.0.0.0"))) ∧
    (exited st' = None ↔ fault env (Listen 3000 "0.0.0.0") = None) ∧
    (∀ e, fault env (Listen 3000 "0.0.0.0") = Some e →
          last (console st') = Some (LoggerError e)).
Proof.
  intros Hex. destruct (proxy_ensureBucket_quiet env st) as (st1 & Hrun & Hex1).
  rewrite Hex in Hex1.
  unfold Proxy.start, try_catch, bind at 1. rewrite Hrun.
  unfold bind at 1, listen, call.
  destruct (fault env (Listen 3000 "0.0.0.0")) as [e|] eqn:Hf.
  - eexists. split; [reflexivity|]. cbn.
    split; [split; [by eexists|done]|]. split; [split; done|].
    intros e' [= <-]. by rewrite last_snoc.
  - eexists. split; [reflexivity|]. cbn. rewrite Hex1.
    split; [split; [done|by intros [? [=]]]|]. split; [done|]. intros e' [=].
Qed.

Lemma proxy_start_exit_witness :
  ∃ st',
    Proxy.start (failing (Listen 3000 "0.0.0.0") ECONNREFUSED) empty_bucket = (Return (), st') ∧
    exited st' = Some 1.
Proof.
  destruct (proxy_start_exit (failing (Listen 3000 "0.0.0.0") ECONNREFUSED) empty_bucket
              eq_refl) as (st' & Hrun & Hex & _).
  exists st'. split; [exact Hrun|]. apply Hex. by eexists.
Defined.




(** ** The register of posts, any request *)

Lemma post_posts_cases b posts :
  Direct.post_posts b posts =
    if can_destructure b then
      (created (record_of (length posts) b), posts ++ [record_of (length posts) b])
    else (Throw Direct.TypeError, posts).
Proof. by destruct b. Qed.

Lemma sequential_snoc posts b :
  sequential posts → sequential (posts ++ [record_of (length posts) b]).
Proof.
  unfold sequential. intros Hseq.
  rewrite fmap_app, length_app, seq_app, fmap_app, Hseq. cbn.
  do 3 f_equal. lia.
Qed.

(** X15. Whatever bodies a sequence of POST /posts requests carries, and
    from any register whose identifiers are 1, 2, 3, ..., the register
    keeps that numbering and only grows at its end: the records it held
    are unchanged, one record is added per body that can be destructured,
    and a body that is undefined or null is answered by a thrown
    TypeError and adds nothing. *)
Theorem appends_keep_numbering bodies : ∀ posts,
  sequential posts →
  sequential (appends bodies posts).2 ∧
  posts `prefix_of` (appends bodies posts).2 ∧
  length (appends bodies posts).2 =
    (length posts + length (filter (λ b, can_destructure b = true) bodies))%nat ∧
  Forall2 (λ b o, if can_destructure b then ∃ r, o = Return r ∧ status r = 200
                  else o = Throw Direct.TypeError)
          bodies (appends bodies posts).1.
Proof.
  induction bodies as [|b rest IH]; intros posts Hseq.
  - cbn. split; [done|]. split; [done|]. split; [lia|constructor].
  - cbn [appends]. rewrite post_posts_cases.
    destruct (can_destructure b) eqn:Hb.
    + destruct (IH (posts ++ [record_of (length posts) b]) (sequential_snoc _ b Hseq))
        as (Hseq' & Hpre & Hlen & Hall).
      destruct (appends rest (posts ++ [record_of (length posts) b])) as [rs posts'].
      cbn [fst snd] in *. split; [done|]. split; [|split].
      * etrans; [|exact Hpre]. by apply prefix_app_r.
      * rewrite Hlen, length_app, filter_cons_True by done. cbn. lia.
      * constructor; [|done]. rewrite Hb. by eexists.
    + destruct (IH posts Hseq) as (Hseq' & Hpre & Hlen & Hall).
      destruct (appends rest posts) as [rs posts'].
      cbn [fst snd] in *. split; [done|]. split; [done|]. split.
      * rewrite Hlen, filter_cons_False; [done|]. by rewrite Hb.
      * constructor; [|done]. by rewrite Hb.
Qed.

Lemma appends_keep_numbering_witness :
  let bodies := [JObj [("title", JStr "t")]; JNull; JStr "not an object"] in
  let posts := [post.mk 1 (JStr "first") JUndef JUndef] in
  post.id <$> (appends bodies posts).2 = [1; 2; 3] ∧
  length (appends bodies posts).2 = 3%nat.
Proof.
  intros bodies posts.
  destruct (appends_keep_numbering bodies posts) as (Hseq & _ & Hlen & _).
  - reflexivity.
  - split; [|exact Hlen]. unfold sequential in Hseq. rewrite Hseq, Hlen. reflexivity.
Defined.

(** X16. A post that was just created is what GET /posts lists last: the
    array has one element per record, the last one is the record that
    the POST answered with, and its identifier is the length of the
    array. *)
Theorem created_post_is_listed_last b posts :
  can_destructure b = true →
  ∃ r posts' items,
    Direct.post_posts b posts = (Return r, posts') ∧
    json (Direct.get_posts posts') = JArr items ∧
    length items = S (length posts) ∧
    last items = Some (prop "post" (json r)) ∧
    prop "id" (prop "post" (json r)) = JNum (Z.of_nat (length items)).
Proof.
  intros Hb. rewrite post_posts_cases, Hb. eexists _, _, _.
  split; [reflexivity|]. split; [reflexivity|].
  split; [by rewrite length_fmap, length_app, Nat.add_1_r|].
  split; [rewrite fmap_app; cbn [fmap list_fmap]; by rewrite last_snoc|].
  cbn. rewrite length_fmap, length_app. cbn. do 2 f_equal. lia.
Qed.

Lemma created_post_is_listed_last_witness :
  ∃ r posts' items,
    Direct.post_posts (JObj [("title", JStr "t"); ("description", JStr "d");
                             ("fileKey", JStr "k")]) [] = (Return r, posts') ∧
    json (Direct.get_posts posts') = JArr items ∧
    last items = Some (JObj [("id", JNum 1); ("title", JStr "t");
                             ("description", JStr "d"); ("fileKey", JStr "k")]).
Proof.
  destruct (created_post_is_listed_last
              (JObj [("title", JStr "t"); ("description", JStr "d"); ("fileKey", JStr "k")])
              [] eq_refl)
    as (r & posts' & items & Hrun & Hlist & _ & Hlast & _).
  exists r, posts', items. split; [exact Hrun|]. split; [exact Hlist|].
  rewrite Hlast. cbn in Hrun. injection Hrun as <- _. reflexivity.
Defined.

(** ** Pre-signed URLs, any outcome *)

(** X17. The three URL handlers always answer, with 200 or 500: 500
    exactly when the signing call fails.  Each issues that one call and
    no other, and none of them changes the buckets or looks an object
    up. *)
Theorem url_handlers_only_sign env k st :
  (∃ r st',
     Proxy.get_upload_url env k st = (Return r, st') ∧
     buckets st' = buckets st ∧
     trace st' = trace st ++ [PresignedPutObject "my-bucket" k 86400] ∧
     (status r = 200 ∨ status r = 500) ∧
     (status r = 500 ↔ is_Some (fault env (PresignedPutObject "my-bucket" k 86400)))) ∧
  (∃ r st',
     Direct.get_upload_url env k st = (Return r, st') ∧
     buckets st' = buckets st ∧
     trace st' = trace st ++ [PresignedPutObject "my-bucket" k 300] ∧
     (status r = 200 ∨ status r = 500) ∧
     (status r = 500 ↔ is_Some (fault env (PresignedPutObject "my-bucket" k 300)))) ∧
  (∃ r st',
     Direct.get_download_url env k st = (Return r, st') ∧
     buckets st' = buckets st ∧
     trace st' = trace st ++ [PresignedGetObject "my-bucket" k 300] ∧
     (status r = 200 ∨ status r = 500) ∧
     (status r = 500 ↔ is_Some (fault env (PresignedGetObject "my-bucket" k 300)))).
Proof.
  split; [|split].
  - unfold Proxy.get_upload_url, try_catch, bind, presignedPutObject, bind, call.
    change Proxy.BUCKET_NAME with "my-bucket". change (24 * 60 * 60) with 86400.
    destruct (fault env (PresignedPutObject "my-bucket" k 86400)) as [e|];
      eexists _, _; (split; [reflexivity|]); cbn;
      (split; [done|]); (split; [done|]); split; try (by left); try (by right);
      split; try done; try (by eexists); by intros [? [=]].
  - unfold Direct.get_upload_url, try_catch, bind, presignedPutObject, bind, call.
    change Direct.BUCKET_NAME with "my-bucket". change (60 * 5) with 300.
    destruct (fault env (PresignedPutObject "my-bucket" k 300)) as [e|];
      eexists _, _; (split; [reflexivity|]); cbn;
      (split; [done|]); (split; [done|]); split; try (by left); try (by right);
      split; try done; try (by eexists); by intros [? [=]].
  - unfold Direct.get_download_url, try_catch, bind, presignedGetObject, bind, call.
    change Direct.BUCKET_NAME with "my-bucket". change (60 * 5) with 300.
    destruct (fault env (PresignedGetObject "my-bucket" k 300)) as [e|];
      eexists _, _; (split; [reflexivity|]); cbn;
      (split; [done|]); (split; [done|]); split; try (by left); try (by right);
      split; try done; try (by eexists); by intros [? [=]].
Qed.

(** ** Without the bucket *)

(** X18. When the bucket does not exist (the streaming-proxy variant
    starts without it if provisioning failed), the store answering
    otherwise, every object operation answers 500, also Retrieve and
    Delete: a missing bucket is not reported as a missing file, and no
    operation creates the bucket. *)
Theorem without_bucket_all_fail env st d k :
  buckets st !! Proxy.BUCKET_NAME = None →
  (∀ c, fault env c = None) →
  (∃ st', Proxy.post_upload env (Return (Some d)) st =
            (Return (send 500 (error_payload "Failed to upload file")), st') ∧
          buckets st' = buckets st) ∧
  (∃ st', Proxy.get_file env k st =
            (Return (send 500 (error_payload "Failed to retrieve file")), st') ∧
          buckets st' = buckets st) ∧
  (∃ st', Proxy.get_files env st =
            (Return (send 500 (error_payload "Failed to list files")), st') ∧
          buckets st' = buckets st) ∧
  (∃ st', Proxy.delete_file env k st =
            (Return (send 500 (error_payload "Failed to delete file")), st') ∧
          buckets st' = buckets st ∧
          trace st' = trace st ++ [StatObject Proxy.BUCKET_NAME k]).
Proof.
  intros Hb Hf. split; [|split; [|split]].
  - eexists. split.
    + apply post_upload_put_throws with (e := NoSuchBucket).
      unfold putObject, bind. rewrite (call_ok _ _ _ (Hf _)). cbn. by rewrite Hb.
    + reflexivity.
  - eexists. split.
    + rewrite (get_file_get_throws _ _ _ NoSuchBucket
                 (record (GetObject Proxy.BUCKET_NAME k) st)); [done|].
      unfold getObject, bind. rewrite (call_ok _ _ _ (Hf _)).
      unfold lookup_object. cbn. by rewrite Hb.
    + reflexivity.
  - eexists. split.
    + unfold Proxy.get_files, try_catch, bind at 1, listObjects.
      rewrite (Hf _), Hb. reflexivity.
    + reflexivity.
  - eexists. split.
    + rewrite (delete_file_stat_throws _ _ _ NotFound
                 (record (StatObject Proxy.BUCKET_NAME k) st)); [done|].
      unfold statObject, bind. rewrite (call_ok _ _ _ (Hf _)).
      unfold head_object. cbn. by rewrite Hb.
    + split; reflexivity.
Qed.

Lemma without_bucket_all_fail_witness :
  (Proxy.get_file quiet "a.txt" no_bucket).1 =
    Return (send 500 (error_payload "Failed to retrieve file")) ∧
  (Proxy.delete_file quiet "a.txt" no_bucket).1 =
    Return (send 500 (error_payload "Failed to delete file")).
Proof.
  destruct (without_bucket_all_fail quiet no_bucket a_txt "a.txt")
    as (_ & (st1 & H1 & _) & _ & (st2 & H2 & _)).
  - reflexivity.
  - intros c. reflexivity.
  - split; [by rewrite H1|by rewrite H2].
Defined.

(** ** Concrete runs of the unconditional properties *)

Lemma post_upload_replies_witness :
  ∃ r st',
    Proxy.post_upload quiet (Return None) empty_bucket = (Return r, st') ∧
    status r = 400 ∧
    trace st' = [] ∧
    buckets st' = buckets empty_bucket.
Proof.
  destruct (post_upload_replies quiet (Return None) empty_bucket)
    as (r & st' & Hrun & _ & H400 & Htrace & Hsame).
  assert (Hr : status r = 400) by (by apply H400).
  exists r, st'. split; [exact Hrun|]. split; [exact Hr|].
  split; [by apply Htrace|]. apply Hsame. rewrite Hr. discriminate.
Defined.

Lemma delete_file_effect_witness :
  let st := mkState {[ "my-bucket" := {[ "k" := mkStored hi ∅ 0; "other" := mkStored [] ∅ 0 ]} ]}
                    [] [] None in
  ∃ r st',
    Proxy.delete_file quiet "k" st = (Return r, st') ∧
    object_at st' "my-bucket" "k" = None ∧
    object_at st' "my-bucket" "other" = Some (mkStored [] ∅ 0).
Proof.
  intros st.
  destruct (delete_file_effect quiet "k" st) as (r & st' & Hrun & _ & H200 & _).
  assert (Hr : status r = 200).
  { pose proof (f_equal fst Hrun) as H. vm_compute in H. injection H as <-. reflexivity. }
  destruct (H200 Hr) as (_ & Hgone & Hothers).
  exists r, st'. split; [exact Hrun|]. split; [exact Hgone|].
  rewrite (Hothers "my-bucket" "other").
  - vm_compute. reflexivity.
  - intros [_ H]. discriminate H.
Defined.


Lemma get_files_outcome_witness :
  let env := mkEnv (λ c, if bool_decide (c = ListObjects "my-bucket" "" true)
                         then Some ECONNREFUSED else None)
                   0 sample_sign ∅ 0 1 in
  let st := mkState {[ "my-bucket" := {[ "a" := mkStored hi ∅ 1; "b" := mkStored [] ∅ 2 ]} ]}
                    [] [] None in
  ∃ r st',
    Proxy.get_files env st = (Return r, st') ∧
    status r = 500 ∧
    body r = BJson (JObj [("error", JStr "Failed to list files")]) ∧
    trace st' = [ListObjects "my-bucket" "" true; StatObject "my-bucket" "a"].
Proof.
  intros env st.
  destruct (get_files_outcome env st) as (r & st' & Hrun & _ & _ & H500 & Htrace).
  assert (Hr : status r = 500) by (apply H500; left; by eexists).
  destruct (Htrace Hr) as [Hbody Ht].
  exists r, st'. split; [exact Hrun|]. split; [exact Hr|]. split; [exact Hbody|].
  rewrite Ht. vm_compute. reflexivity.
Defined.

Lemma url_handlers_only_sign_witness :
  ∃ r st',
    Direct.get_download_url (failing (PresignedGetObject "my-bucket" "k" 300) ECONNREFUSED)
      "k" empty_bucket = (Return r, st') ∧
    status r = 500 ∧
    buckets st' = buckets empty_bucket.
Proof.
  destruct (url_handlers_only_sign
              (failing (PresignedGetObject "my-bucket" "k" 300) ECONNREFUSED) "k" empty_bucket)
    as (_ & _ & (r & st' & Hrun & Hsame & _ & _ & H500)).
  exists r, st'. split; [exact Hrun|]. split; [|exact Hsame].
  apply H500. by eexists.
Defined.
